(** * cricket/source/download.py: flattening and table routing

    A shallow embedding of the data-shaping half of [download.py]: the
    string surgery that turns stringified list cells into positional
    columns ([edit_and_write_info]), the routing of dotted columns to
    satellite relations ([edit_feather_to_sql]), the aggregation that
    produces the cached frame ([aggregate_yaml_to_feather]) and the
    helper [access_dict]; and of what surrounds it: the names of the
    databases and their tables, [add_to_outcomes], the identifier and
    the date read off a path, and the newest file of a directory.

    Python strings are [string] (bytes; every literal of the module is
    ASCII), a pandas frame is a record of an index and named columns,
    the sqlite files are a finite map from file name to a finite map of
    relations, and exceptions are values of [result]. *)

From Stdlib Require Import Ascii String ZArith Permutation.
From stdpp Require Import gmap strings list fin_maps pretty.

Local Open Scope string_scope.
Local Open Scope list_scope.

Set Warnings "-register-all".

(** ** Exceptions *)

Inductive exn : Type :=
  | KeyError
  | ValueError
  | IndexError
  | TypeError
  | AttributeError.

Inductive result (A : Type) : Type :=
  | Ok (a : A)
  | Raise (e : exn).
Arguments Ok {A} a.
Arguments Raise {A} e.

Global Instance result_bind : MBind result := λ A B k r,
  match r with
  | Ok a => k a
  | Raise e => Raise e
  end.

(** [for x in xs: acc = f(acc, x)], stopping at the first exception. *)
Fixpoint for_each {A S : Type} (f : S → A → result S) (xs : list A) (s : S)
  : result S :=
  match xs with
  | [] => Ok s
  | x :: xs' => s' ← f s x; for_each f xs' s'
  end.

(** ** Python string primitives *)

Module Py.

(** [s[1:-1]] *)
Definition slice_1_m1 (s : string) : string :=
  substring 1 (String.length s - 2) s.

(** [s[:-1]] *)
Definition slice_to_m1 (s : string) : string :=
  substring 0 (String.length s - 1) s.

(** [s.replace(old, new)] for a non-empty [old]: occurrences are taken
    left to right and do not overlap.  [skip] counts the characters of
    the occurrence just replaced that are still to be passed over. *)
Fixpoint replace_aux (old new : string) (skip : nat) (s : string) : string :=
  match s with
  | EmptyString => EmptyString
  | String c s' =>
      match skip with
      | S k => replace_aux old new k s'
      | O =>
          if String.prefix old s
          then new +:+ replace_aux old new (String.length old - 1) s'
          else String c (replace_aux old new 0 s')
      end
  end.

(** With an empty [old] Python puts [new] before every character and at
    the end. *)
Fixpoint interleave (new s : string) : string :=
  match s with
  | EmptyString => new
  | String c s' => new +:+ String c (interleave new s')
  end.

Definition replace (old new s : string) : string :=
  match old with
  | EmptyString => interleave new s
  | _ => replace_aux old new 0 s
  end.

(** [s.split(sep)] for a non-empty [sep]; [cur] is the piece being read.
    The result always has at least one piece. *)
Fixpoint split_aux (sep : string) (skip : nat) (cur s : string) : list string :=
  match s with
  | EmptyString => [cur]
  | String c s' =>
      match skip with
      | S k => split_aux sep k cur s'
      | O =>
          if String.prefix sep s
          then cur :: split_aux sep (String.length sep - 1) EmptyString s'
          else split_aux sep 0 (cur +:+ String c EmptyString) s'
      end
  end.

Definition split (sep s : string) : result (list string) :=
  match sep with
  | EmptyString => Raise ValueError
  | _ => Ok (split_aux sep 0 EmptyString s)
  end.

(** [s.index('.')] *)
Fixpoint index_dot (s : string) : result nat :=
  match s with
  | EmptyString => Raise ValueError
  | String c s' =>
      if Ascii.eqb c "." then Ok 0
      else i ← index_dot s'; Ok (S i)
  end.

(** [re.search('\.', s) is not None] *)
Fixpoint has_dot (s : string) : bool :=
  match s with
  | EmptyString => false
  | String c s' => Ascii.eqb c "." || has_dot s'
  end.

(** [\d] on ASCII text. *)
Definition is_digit (c : ascii) : bool :=
  Nat.leb 48 (nat_of_ascii c) && Nat.leb (nat_of_ascii c) 57.

(** One attempt of [\d{4}, \d{2}, \d{1,2}] at the start of [s]; the
    last quantifier is greedy. *)
Definition match_date (s : string) : option string :=
  match s with
  | String y1 (String y2 (String y3 (String y4 (String c1 (String b1
      (String m1 (String m2 (String c2 (String b2 (String d1 rest)))))))))) =>
      if is_digit y1 && is_digit y2 && is_digit y3 && is_digit y4
         && Ascii.eqb c1 "," && Ascii.eqb b1 " "
         && is_digit m1 && is_digit m2
         && Ascii.eqb c2 "," && Ascii.eqb b2 " "
         && is_digit d1
      then
        let head := substring 0 11 s in
        match rest with
        | String d2 _ =>
            if is_digit d2 then Some (head +:+ String d2 EmptyString)
            else Some head
        | EmptyString => Some head
        end
      else None
  | _ => None
  end.

(** [re.findall(r'\d{4}, \d{2}, \d{1,2}', s)]: leftmost matches that do
    not overlap. *)
Fixpoint findall_date_aux (skip : nat) (s : string) : list string :=
  match s with
  | EmptyString => []
  | String c s' =>
      match skip with
      | S k => findall_date_aux k s'
      | O =>
          match match_date s with
          | Some m => m :: findall_date_aux (String.length m - 1) s'
          | None => findall_date_aux 0 s'
          end
      end
  end.

Definition findall_date (s : string) : list string := findall_date_aux 0 s.

(** [re.sub(r'-(\d)$', r'-0\1', s)]; [$] holds at the end and before a
    final newline. *)
Fixpoint sub_day (s : string) : string :=
  match s with
  | EmptyString => EmptyString
  | String c s' =>
      match s' with
      | String d r =>
          if Ascii.eqb c "-" && is_digit d
             && (String.eqb r EmptyString
                 || String.eqb r (String (ascii_of_nat 10) EmptyString))
          then "-0" +:+ s'
          else String c (sub_day s')
      | EmptyString => String c EmptyString
      end
  end.

(** [re.sub(r'-(\d)-', r'-0\1-', s)]: the closing dash of one match is
    consumed and cannot open the next. *)
Fixpoint sub_month_aux (skip : nat) (s : string) : string :=
  match s with
  | EmptyString => EmptyString
  | String c s' =>
      match skip with
      | S k => sub_month_aux k s'
      | O =>
          match s' with
          | String d (String e _) =>
              if Ascii.eqb c "-" && is_digit d && Ascii.eqb e "-"
              then "-0" +:+ String d "-" +:+ sub_month_aux 2 s'
              else String c (sub_month_aux 0 s')
          | _ => String c (sub_month_aux 0 s')
          end
      end
  end.

Definition sub_month (s : string) : string := sub_month_aux 0 s.

End Py.

(** ** Frames *)

(** A cell of a frame read back from the cache: text, an integer of an
    integer column, a float of a float column (the documents hold no
    fractions, so its value is an integer), the float NaN, or [None]. *)
Inductive cell : Type :=
  | CStr (s : string)
  | CNum (z : Z)
  | CFloat (z : Z)
  | CNaN
  | CNone.

Global Instance cell_eq_dec : EqDecision cell.
Proof. solve_decision. Defined.

(** A pandas [DataFrame]: the index with its name, and the columns in
    their order.  Column names are unique in every frame the module
    builds (they come from dictionary keys); the operations below take
    the first column of a name when they look one up. *)
Record DataFrame : Type := mkDF {
  index_name : option string;
  index : list cell;
  columns : list (string * list cell)
}.

Definition names (df : DataFrame) : list string := List.map fst (columns df).

Definition with_columns (df : DataFrame) (cs : list (string * list cell)) : DataFrame :=
  mkDF (index_name df) (index df) cs.

Fixpoint assoc {B : Type} (k : string) (l : list (string * B)) : option B :=
  match l with
  | [] => None
  | (k', v) :: l' => if String.eqb k' k then Some v else assoc k l'
  end.

Fixpoint assoc_set {B : Type} (k : string) (v : B) (l : list (string * B))
  : list (string * B) :=
  match l with
  | [] => [(k, v)]
  | (k', v') :: l' =>
      if String.eqb k' k then (k', v) :: l' else (k', v') :: assoc_set k v l'
  end.

Definition assoc_del {B : Type} (k : string) (l : list (string * B))
  : list (string * B) :=
  List.filter (λ kv, negb (String.eqb kv.1 k)) l.

Module Frame.

(** [df.rename(columns={old: new})] *)
Definition rename (old new : string) (df : DataFrame) : DataFrame :=
  with_columns df
    (List.map (λ kv, (if String.eqb kv.1 old then new else kv.1, kv.2)) (columns df)).

(** [df.set_index(name)]: the column becomes the index and leaves the
    columns.  This is the call on a frame with one column of the name;
    with two of them, which takes a document with a ['MATCHID'] of its
    own, pandas pairs them up in the index, and here the first one is
    taken. *)
Definition set_index (name : string) (df : DataFrame) : result DataFrame :=
  match assoc name (columns df) with
  | Some vs => Ok (mkDF (Some name) vs (assoc_del name (columns df)))
  | None => Raise KeyError
  end.

(** [df[name].values] *)
Definition getitem (name : string) (df : DataFrame) : result (list cell) :=
  match assoc name (columns df) with
  | Some vs => Ok vs
  | None => Raise KeyError
  end.

(** [df.loc[:, name] = vs]: overwrite in place, or append a new column.
    Every list assigned in this module has one entry per row. *)
Definition setitem (name : string) (vs : list cell) (df : DataFrame) : DataFrame :=
  with_columns df (assoc_set name vs (columns df)).

(** [df.drop(name, axis=1)] *)
Definition drop (name : string) (df : DataFrame) : result DataFrame :=
  match assoc name (columns df) with
  | Some _ => Ok (with_columns df (assoc_del name (columns df)))
  | None => Raise KeyError
  end.

(** [df.drop(labels, axis=1)]: every label has to be there; the columns
    that carry one of them go. *)
Definition drop_labels (labels : list string) (df : DataFrame) : result DataFrame :=
  if forallb (λ l, existsb (String.eqb l) (names df)) labels
  then Ok (with_columns df
             (List.filter (λ kv, negb (existsb (String.eqb kv.1) labels)) (columns df)))
  else Raise KeyError.

(** [df.filter(regex='\.')]: the columns whose name has a dot. *)
Definition filter_dot (df : DataFrame) : DataFrame :=
  with_columns df (List.filter (λ kv, Py.has_dot kv.1) (columns df)).

(** [df[labels]] *)
Fixpoint select_cols (labels : list string) (cs : list (string * list cell))
  : result (list (string * list cell)) :=
  match labels with
  | [] => Ok []
  | l :: labels' =>
      match assoc l cs with
      | Some vs => rest ← select_cols labels' cs; Ok ((l, vs) :: rest)
      | None => Raise KeyError
      end
  end.

Definition select (labels : list string) (df : DataFrame) : result DataFrame :=
  cs ← select_cols labels (columns df); Ok (with_columns df cs).

End Frame.

(** ** [edit_and_write_info] *)

Definition list_cols_info : list string :=
  ["dates"; "player_of_match"; "teams"; "umpires"].

(** [x[1:-1]] on a cell: text is sliced, [None] is not subscriptable,
    a numpy scalar refuses the index. *)
Definition cell_slice (c : cell) : result string :=
  match c with
  | CStr s => Ok (Py.slice_1_m1 s)
  | CNone => Raise TypeError
  | CNum _ | CFloat _ | CNaN => Raise IndexError
  end.

Fixpoint mapM {A B : Type} (f : A → result B) (l : list A) : result (list B) :=
  match l with
  | [] => Ok []
  | a :: l' => b ← f a; bs ← mapM f l'; Ok (b :: bs)
  end.

(** Lines 317-320: one date cell to its list of padded dates. *)
Definition date_elem (y : string) : string :=
  Py.sub_month (Py.sub_day (Py.replace ", " "-" y)).

Definition parse_dates (c : cell) : result (list string) :=
  x ← cell_slice c;
  Ok (List.map date_elem (Py.findall_date (Py.replace "datetime.date" EmptyString x))).

(** Line 322: one cell of another list field to its elements. *)
Definition parse_plain (c : cell) : result (list string) :=
  x ← cell_slice c;
  Py.split ", " (Py.replace "'" EmptyString x).

Definition parse_vals (col : string) (cells : list cell) : result (list (list string)) :=
  if String.eqb col "dates" then mapM parse_dates cells
  else mapM parse_plain cells.

(** [max(l)]: an empty list has no maximum. *)
Definition py_max (l : list nat) : result nat :=
  match l with
  | [] => Raise ValueError
  | n :: l' => Ok (List.fold_left Nat.max l' n)
  end.

(** ['{0:s}.{1:d}'.format(col[:-1], x+1)] *)
Definition basename (col : string) : string := Py.slice_to_m1 col.

Definition newcol (col : string) (x : nat) : string :=
  basename col +:+ "." +:+ pretty (x + 1).

(** [[x[i] if i < len(x) else None for x in vals]] *)
Definition nth_cell (i : nat) (x : list string) : cell :=
  match x !! i with
  | Some s => CStr s
  | None => CNone
  end.

Definition positional (i : nat) (vals : list (list string)) : list cell :=
  List.map (nth_cell i) vals.

(** Lines 324-327. *)
Definition add_positional (col : string) (vals : list (list string)) (max_length : nat)
    (info : DataFrame) : DataFrame :=
  List.fold_left (λ df i, Frame.setitem (newcol col i) (positional i vals) df)
    (seq 0 max_length) info.

(** The body of the loop over [list_cols_info], lines 315-328. *)
Definition expand_col (info : DataFrame) (col : string) : result DataFrame :=
  cells ← Frame.getitem col info;
  vals ← parse_vals col cells;
  max_length ← py_max (List.map length vals);
  Frame.drop col (add_positional col vals max_length info).

Definition edit_and_write_info (feather : DataFrame) : result DataFrame :=
  info ← Frame.set_index "MATCHID" (Frame.rename "ID" "MATCHID" feather);
  for_each expand_col list_cols_info info.

(** [edit_and_write_innings] returns [None]. *)
Definition edit_and_write_innings : option DataFrame := None.

Definition demo_feather : DataFrame :=
  mkDF None [CNum 0; CNum 0]
    [ ("city", [CStr "Pune"; CStr "nan"]);
      ("dates", [CStr "[datetime.date(2020, 10, 5)]";
                 CStr "[datetime.date(2020, 11, 15), datetime.date(2020, 11, 16)]"]);
      ("outcome.winner", [CStr "India"; CStr "Australia"]);
      ("player_of_match", [CStr "['V Kohli']"; CStr "['SPD Smith']"]);
      ("teams", [CStr "['India', 'Australia']"; CStr "['India', 'Australia']"]);
      ("umpires", [CStr "['A', 'B']"; CStr "['C', 'D']"]);
      ("ID", [CStr "1001"; CStr "1002"]) ].

(** ** The sqlite files *)

(** What [to_sql] stores under a table name: the index first, under its
    label, then the columns. *)
Definition relation : Type := list (string * list cell).

(** File name to table name to relation. *)
Abbreviation store := (gmap string (gmap string relation)).

(** Code that writes to the files and may raise. *)
Definition M (A : Type) : Type := store → store * result A.

Global Instance M_ret : MRet M := λ A a st, (st, Ok a).

Global Instance M_bind : MBind M := λ A B k m st,
  match m st with
  | (st', Ok a) => k a st'
  | (st', Raise e) => (st', Raise e)
  end.

Definition lift {A : Type} (r : result A) : M A := λ st, (st, r).

Fixpoint for_eachM {A : Type} (f : A → M unit) (xs : list A) : M unit :=
  match xs with
  | [] => mret ()
  | x :: xs' => _ ← f x; for_eachM f xs'
  end.

(** [os.path.join] on a POSIX host. *)
Definition path_join (parts : list string) : string :=
  match parts with
  | [] => EmptyString
  | p :: ps => List.fold_left (λ acc q, acc +:+ "/" +:+ q) ps p
  end.

Definition get_data_sql_dir : string := path_join [".."; "data"; "sqlite"].

(** [get_sql_db_fname] answers with a file name for a name it knows and
    with the whole dictionary otherwise. *)
Inductive fname_or_dict : Type :=
  | Fname (path : string)
  | Dict (lst : list (string * string)).

Definition get_sql_db_fname (dbname : option string) : fname_or_dict :=
  let lst := [ ("matchinfo", path_join [get_data_sql_dir; "info.sqlite"]);
               ("delivery", path_join [get_data_sql_dir; "delivery.sqlite"]) ] in
  match dbname with
  | None => Dict lst
  | Some n =>
      match assoc n lst with
      | Some p => Fname p
      | None => Dict lst
      end
  end.

(** [sqlite3.connect(database)]: the connection is known by its file;
    anything but a path is a [TypeError]. *)
Definition connect (database : fname_or_dict) : M string :=
  match database with
  | Fname p => mret p
  | Dict _ => lift (Raise TypeError)
  end.

Definition index_label (df : DataFrame) : string :=
  default "index" (index_name df).

Definition as_relation (df : DataFrame) : relation :=
  (index_label df, index df) :: columns df.

(** [df.to_sql(name, con=conn, if_exists='replace')] *)
Definition to_sql (df : DataFrame) (name : string) (conn : string) : M unit :=
  λ st, (<[conn := <[name := as_relation df]> (default ∅ (st !! conn))]> st, Ok ()).

(** ** [edit_feather_to_sql] *)

(** [col[:col.index('.')]] *)
Definition tname_of (col : string) : result string :=
  i ← Py.index_dot col; Ok (substring 0 i col).

(** One round of the loop that fills [col_to_table], a dictionary in
    insertion order. *)
Fixpoint append_to {B : Type} (k : string) (v : B) (l : list (string * list B))
  : list (string * list B) :=
  match l with
  | [] => [(k, [v])]
  | (k', vs) :: l' =>
      if String.eqb k' k then (k', vs ++ [v]) :: l'
      else (k', vs) :: append_to k v l'
  end.

Definition col_to_table_step (acc : list (string * list string)) (col : string)
  : result (list (string * list string)) :=
  tname ← tname_of col; Ok (append_to tname col acc).

Definition col_to_table (period_cols : list string)
  : result (list (string * list string)) :=
  for_each col_to_table_step period_cols [].

(** The body of the loop over the two frames, lines 285-301. *)
Definition persist (df : option DataFrame) (dbname : string) : M unit :=
  match df with
  | None => lift (Raise AttributeError)
  | Some df =>
      let period_df := Frame.filter_dot df in
      no_period_df ← lift (Frame.drop_labels (names (Frame.filter_dot df)) df);
      conn ← connect (get_sql_db_fname (Some dbname));
      _ ← to_sql no_period_df dbname conn;
      c2t ← lift (col_to_table (names period_df));
      for_eachM (λ entry : string * list string,
                   tmp ← lift (Frame.select entry.2 period_df);
                   to_sql tmp entry.1 conn) c2t
  end.

Definition edit_feather_to_sql (feather : DataFrame) : M unit :=
  info ← lift (edit_and_write_info feather);
  let innings := edit_and_write_innings in
  for_eachM (λ p : option DataFrame * string, persist p.1 p.2)
    [(Some info, "matchinfo"); (innings, "innings")].


(** ** Documents *)

(** A dictionary key: text, an integer, or a tuple of keys. *)
Inductive key : Type :=
  | KStr (s : string)
  | KInt (z : Z)
  | KTuple (ks : list key).

(** What [yaml.load] hands over: [None], integers, text, dates, lists
    and dictionaries (in insertion order, keys unique). *)
Inductive pyval : Type :=
  | PNone
  | PInt (z : Z)
  | PStr (s : string)
  | PDate (y m d : Z)
  | PList (l : list pyval)
  | PDict (kvs : list (key * pyval)).

Fixpoint key_eqb (a b : key) : bool :=
  match a, b with
  | KStr s, KStr t => String.eqb s t
  | KInt x, KInt y => Z.eqb x y
  | KTuple l, KTuple m =>
      (fix go (l m : list key) : bool :=
         match l, m with
         | [], [] => true
         | x :: l', y :: m' => key_eqb x y && go l' m'
         | _, _ => false
         end) l m
  | _, _ => false
  end.

Fixpoint lookup_key (k : key) (kvs : list (key * pyval)) : option pyval :=
  match kvs with
  | [] => None
  | (k', v) :: kvs' => if key_eqb k' k then Some v else lookup_key k kvs'
  end.

Module Repr.

(** [sep.join(parts)] *)
Fixpoint join (sep : string) (parts : list string) : string :=
  match parts with
  | [] => EmptyString
  | [p] => p
  | p :: ps => p +:+ sep +:+ join sep ps
  end.

Fixpoint contains (c : ascii) (s : string) : bool :=
  match s with
  | EmptyString => false
  | String c' s' => Ascii.eqb c' c || contains c s'
  end.

Definition hex_digit (n : nat) : ascii :=
  if Nat.ltb n 10 then ascii_of_nat (48 + n) else ascii_of_nat (87 + n).

(** One character inside [repr] of a string quoted with [q]. *)
Definition escape (q c : ascii) : string :=
  let n := nat_of_ascii c in
  if Ascii.eqb c "\" then "\\"
  else if Ascii.eqb c q then "\" +:+ String q EmptyString
  else if Nat.eqb n 9 then "\t"
  else if Nat.eqb n 10 then "\n"
  else if Nat.eqb n 13 then "\r"
  else if Nat.ltb n 32 || Nat.eqb n 127
       then "\x" +:+ String (hex_digit (n / 16)) (String (hex_digit (n mod 16)) EmptyString)
  else String c EmptyString.

Fixpoint escape_all (q : ascii) (s : string) : string :=
  match s with
  | EmptyString => EmptyString
  | String c s' => escape q c +:+ escape_all q s'
  end.

(** [repr(s)]: single quotes, unless the text has a single quote and no
    double quote. *)
Definition of_str (s : string) : string :=
  let dq := ascii_of_nat 34 in
  let sq := ascii_of_nat 39 in
  let q := if contains sq s && negb (contains dq s) then dq else sq in
  String q (escape_all q s) +:+ String q EmptyString.

(** [s.zfill(n)] on the digits of a number that is not negative. *)
Definition zfill (n : nat) (s : string) : string :=
  String.concat EmptyString (List.repeat "0" (n - String.length s)) +:+ s.

(** [repr] of a tuple of already printed items. *)
Definition of_tuple (items : list string) : string :=
  match items with
  | [i] => "(" +:+ i +:+ ",)"
  | _ => "(" +:+ join ", " items +:+ ")"
  end.

Fixpoint of_key (k : key) : string :=
  match k with
  | KStr s => of_str s
  | KInt z => pretty z
  | KTuple ks => of_tuple (List.map of_key ks)
  end.

(** [str(k)] *)
Definition str_key (k : key) : string :=
  match k with
  | KStr s => s
  | _ => of_key k
  end.

(** [repr(v)] *)
Fixpoint of_val (v : pyval) : string :=
  match v with
  | PNone => "None"
  | PInt z => pretty z
  | PStr s => of_str s
  | PDate y m d =>
      "datetime.date(" +:+ pretty y +:+ ", " +:+ pretty m +:+ ", " +:+ pretty d +:+ ")"
  | PList l => "[" +:+ join ", " (List.map of_val l) +:+ "]"
  | PDict kvs =>
      "{" +:+ join ", " (List.map (λ kv, of_key kv.1 +:+ ": " +:+ of_val kv.2) kvs) +:+ "}"
  end.

(** [str(v)]: text is itself, a date is in ISO form, the rest is its
    [repr]. *)
Definition str (v : pyval) : string :=
  match v with
  | PStr s => s
  | PDate y m d =>
      zfill 4 (pretty y) +:+ "-" +:+ zfill 2 (pretty m) +:+ "-" +:+ zfill 2 (pretty d)
  | _ => of_val v
  end.

End Repr.

(** ** [aggregate_yaml_to_feather] *)

(** [nested_to_record] below the top level: a dictionary becomes one
    entry per leaf, named by the path of keys joined with dots; an empty
    dictionary leaves nothing. *)
Fixpoint flatten_val (name : string) (v : pyval) : list (string * pyval) :=
  match v with
  | PDict kvs =>
      (fix go (l : list (key * pyval)) : list (string * pyval) :=
         match l with
         | [] => []
         | (k, v') :: l' => flatten_val (name +:+ "." +:+ Repr.str_key k) v' ++ go l'
         end) kvs
  | _ => [(name, v)]
  end.

Definition is_dict (v : pyval) : bool :=
  match v with
  | PDict _ => true
  | _ => false
  end.

(** [new_d.update(record)]: an entry whose name is there already takes
    the new value where it stands, the others are added at the end. *)
Definition update (acc record : list (string * pyval)) : list (string * pyval) :=
  List.fold_left (λ a e, assoc_set e.1 e.2 a) record acc.

(** [json_normalize(d)] for one dictionary: the entries that are not
    dictionaries stay where they are; each dictionary is taken out and
    the record is updated with its leaves, in the order of the keys. *)
Definition json_normalize (d : list (key * pyval)) : list (string * pyval) :=
  let top := List.map (λ kv, (Repr.str_key kv.1, kv.2)) d in
  List.fold_left
    (λ acc kv, if is_dict kv.2 then update acc (flatten_val kv.1 kv.2) else acc)
    top (List.filter (λ kv, negb (is_dict kv.2)) top).

(** A document: the identifier read off its file name, and
    [yfile['info']]. *)
Definition document : Type := string * list (key * pyval).

(** [json_normalize(yfile['info']).assign(ID=matchid)] *)
Definition info_record (doc : document) : list (string * pyval) :=
  assoc_set "ID" (PStr doc.1) (json_normalize doc.2).

(** The columns of [pd.concat]: every name of every record, once. *)
Definition union_names (recs : list (list (string * pyval))) : list string :=
  List.fold_left
    (λ acc rec, List.fold_left
       (λ acc' n, if existsb (String.eqb n) acc' then acc' else acc' ++ [n])
       (List.map fst rec) acc)
    recs [].

(** One column of the concatenation; a record without it has NaN. *)
Definition concat_column (name : string) (recs : list (list (string * pyval)))
  : list (option pyval) :=
  List.map (assoc name) recs.

(** The integers of an [int64] and of a [uint64] column. *)
Definition in_int64 (z : Z) : bool := (- 2 ^ 63 <=? z)%Z && (z <? 2 ^ 63)%Z.
Definition in_uint64 (z : Z) : bool := (0 <=? z)%Z && (z <? 2 ^ 64)%Z.

(** [df[col].dtype == 'object']: some cell is neither missing nor an
    integer of 64 bits; an integer that does not fit stays a Python
    object. *)
Definition is_object (vs : list (option pyval)) : bool :=
  existsb (λ o, match o with
                | None => false
                | Some (PInt z) => negb (in_int64 z || in_uint64 z)
                | Some _ => true
                end) vs.

(** [astype(str)] on one cell of an object column. *)
Definition astype_str (o : option pyval) : cell :=
  match o with
  | None => CStr "nan"
  | Some v => CStr (Repr.str v)
  end.

(** The [float64] nearest to an integer, ties to the even mantissa of
    53 bits. *)
Definition round_to_float (z : Z) : Z :=
  let a := Z.abs z in
  let n := (Z.log2 a + 1)%Z in
  if (n <=? 53)%Z then z
  else
    let sh := (n - 53)%Z in
    let q := Z.shiftr a sh in
    let r := Z.land a (Z.ones sh) in
    let half := Z.shiftl 1 (sh - 1) in
    let q' := if (half <? r)%Z then (q + 1)%Z
              else if (r =? half)%Z && Z.odd q then (q + 1)%Z
              else q in
    (Z.sgn z * Z.shiftl q' sh)%Z.

(** A numeric column keeps its integers when every document has one
    and they are all [int64] or all [uint64] (from [2^63] on); with a
    missing value, or with the two kinds mixed, it is a [float64]
    column. *)
Definition exact_ints (vs : list (option pyval)) : bool :=
  forallb (λ o, match o with
                | Some (PInt z) => in_int64 z
                | _ => false
                end) vs
  || forallb (λ o, match o with
                   | Some (PInt z) => (2 ^ 63 <=? z)%Z
                   | _ => false
                   end) vs.

Definition numeric_cell (exact : bool) (o : option pyval) : cell :=
  match o with
  | Some (PInt z) => if exact then CNum z else CFloat (round_to_float z)
  | _ => CNaN
  end.

Definition numeric_column (vs : list (option pyval)) : list cell :=
  List.map (numeric_cell (exact_ints vs)) vs.

(** Lines 251-262, and the frame as it is read back from the cache:
    every document comes with the one row label 0 of its own frame, and
    [pd.concat] keeps the labels. *)
Definition aggregate_yaml_to_feather (docs : list document) : result DataFrame :=
  match docs with
  | [] => Raise ValueError
  | _ =>
      let recs := List.map info_record docs in
      Ok (mkDF None (List.map (λ _, CNum 0) docs)
            (List.map (λ n, let vs := concat_column n recs in
                            (n, if is_object vs then List.map astype_str vs
                                else numeric_column vs))
               (union_names recs)))
  end.

(** The flattener from documents to the frame that is persisted. *)
Definition flatten_info (docs : list document) : result DataFrame :=
  feather ← aggregate_yaml_to_feather docs;
  edit_and_write_info feather.

(** ** [access_dict] *)

(** [s[i]] for an integer [i], counting from the end when negative. *)
Definition py_index {A : Type} (l : list A) (i : Z) : result A :=
  let n := Z.of_nat (length l) in
  let j := if (i <? 0)%Z then (n + i)%Z else i in
  if (j <? 0)%Z then Raise IndexError
  else match l !! Z.to_nat j with
       | Some a => Ok a
       | None => Raise IndexError
       end.

(** [v[k]] *)
Definition subscript (v : pyval) (k : key) : result pyval :=
  match v with
  | PDict kvs =>
      match lookup_key k kvs with
      | Some x => Ok x
      | None => Raise KeyError
      end
  | PList l =>
      match k with
      | KInt i => py_index l i
      | _ => Raise TypeError
      end
  | PStr s =>
      match k with
      | KInt i => c ← py_index (list_ascii_of_string s) i; Ok (PStr (String c EmptyString))
      | _ => Raise TypeError
      end
  | PNone | PInt _ | PDate _ _ _ => Raise TypeError
  end.

(** The three [except] clauses. *)
Definition caught (e : exn) : bool :=
  match e with
  | KeyError | ValueError | IndexError => true
  | _ => false
  end.

Definition try_except (r : result pyval) : result pyval :=
  match r with
  | Raise e => if caught e then Ok PNone else Raise e
  | Ok v => Ok v
  end.

(** [access_dict(dct, *keys)].  The recursive call hands [keys[1:]]
    over as one argument, so the callee's [keys] is the one-element
    tuple holding that tuple.  [fuel] bounds the depth of the calls. *)
Fixpoint access_dict (fuel : nat) (dct : pyval) (keys : list key)
  : option (result pyval) :=
  match fuel with
  | O => None
  | S fuel' =>
      match keys with
      | [] => Some (Ok dct)
      | k :: rest =>
          match subscript dct k with
          | Raise e => Some (try_except (Raise e))
          | Ok v => try_except <$> access_dict fuel' v [KTuple rest]
          end
      end
  end.

(** ** Definitions used in the statements *)

(** The rule in the words of the data model: a trailing plural marker
    is taken off, and a name without one is left as it is. *)
Definition spec_basename (col : string) : string :=
  match rev (list_ascii_of_string col) with
  | c :: _ => if Ascii.eqb c "s" then Py.slice_to_m1 col else col
  | [] => col
  end.

(** The text before the first dot; the whole text when there is none. *)
Fixpoint before_dot (s : string) : string :=
  match s with
  | EmptyString => EmptyString
  | String c s' => if Ascii.eqb c "." then EmptyString else String c (before_dot s')
  end.

(** A sequence of [to_sql] calls on one file, as writes to its tables. *)
Definition apply_writes (ws : list (string * relation)) (db : gmap string relation)
  : gmap string relation :=
  List.fold_left (λ m w, <[w.1 := w.2]> m) ws db.

(** The last relation written under a name. *)
Fixpoint last_write (t : string) (ws : list (string * relation)) : option relation :=
  match ws with
  | [] => None
  | w :: ws' =>
      match last_write t ws' with
      | Some r => Some r
      | None => if String.eqb w.1 t then Some w.2 else None
      end
  end.

(** The dictionary [col_to_table] after the loop over [cols]. *)
Definition grouped (cols : list string) (acc : list (string * list string))
  : list (string * list string) :=
  List.fold_left (λ a c, append_to (before_dot c) c a) cols acc.

(** The frame [edit_and_write_info] makes of [demo_feather]. *)
Definition demo_info : DataFrame :=
  mkDF (Some "MATCHID") [CStr "1001"; CStr "1002"]
    [ ("city", [CStr "Pune"; CStr "nan"]);
      ("outcome.winner", [CStr "India"; CStr "Australia"]);
      ("date.1", [CStr "2020-10-05"; CStr "2020-11-15"]);
      ("date.2", [CNone; CStr "2020-11-16"]);
      ("player_of_matc.1", [CStr "V Kohli"; CStr "SPD Smith"]);
      ("team.1", [CStr "India"; CStr "India"]);
      ("team.2", [CStr "Australia"; CStr "Australia"]);
      ("umpire.1", [CStr "A"; CStr "C"]);
      ("umpire.2", [CStr "B"; CStr "D"]) ].

(** What lines 285-298 do with the column [col] of the frame [df]: the
    primary frame [no_period_df] and the dictionary [col_to_table] are
    built without an exception, each group is cut out of the dotted
    columns as a frame of its own, and [col] is in the primary frame
    when it has no dot and otherwise in the one group named by
    [col[:col.index('.')]]; the partitions together hold the columns of
    [df], each as often as [df] has it.  This is the state before the
    writes of lines 288 and 298. *)
Definition routed (df : DataFrame) (col : string) : Prop :=
  ∃ (no_period_df : DataFrame) (c2t : list (string * list string)),
    Frame.drop_labels (names (Frame.filter_dot df)) df = Ok no_period_df ∧
    col_to_table (names (Frame.filter_dot df)) = Ok c2t ∧
    List.NoDup (List.map fst c2t) ∧
    List.Forall (λ e, ∃ tmp, Frame.select e.2 (Frame.filter_dot df) = Ok tmp
                             ∧ names tmp = e.2) c2t ∧
    (Py.has_dot col = false →
       In col (names no_period_df) ∧ ∀ t cs, In (t, cs) c2t → ¬ In col cs) ∧
    (Py.has_dot col = true →
       ¬ In col (names no_period_df) ∧
       ∃ t cs, tname_of col = Ok t ∧ assoc t c2t = Some cs ∧ In col cs ∧
               ∀ t' cs', In (t', cs') c2t → In col cs' → t' = t) ∧
    Permutation (names no_period_df ++ concat (List.map snd c2t)) (names df).

(** The file of the 'matchinfo' relations. *)
Definition info_sqlite : string := path_join [get_data_sql_dir; "info.sqlite"].

(** A document with text keys at the top. *)
Definition info_doc (matchid : string) (fields : list (string * pyval)) : document :=
  (matchid, List.map (λ kv, (KStr kv.1, kv.2)) fields).

(** Two documents with every declared list field, dates in October and
    November. *)
Definition demo_docs : list document :=
  [ info_doc "1001"
      [ ("city", PStr "Pune");
        ("dates", PList [PDate 2020 10 5]);
        ("outcome", PDict [(KStr "winner", PStr "India")]);
        ("player_of_match", PList [PStr "V Kohli"]);
        ("teams", PList [PStr "India"; PStr "Australia"]);
        ("umpires", PList [PStr "A"; PStr "B"]) ];
    info_doc "1002"
      [ ("dates", PList [PDate 2020 11 15; PDate 2020 11 16]);
        ("outcome", PDict [(KStr "winner", PStr "Australia")]);
        ("player_of_match", PList [PStr "SPD Smith"]);
        ("teams", PList [PStr "India"; PStr "Australia"]);
        ("umpires", PList [PStr "C"; PStr "D"]) ] ].

(** The four declared list fields of a document, with the given ['dates']
    and ['teams']. *)
Definition list_fields (dates teams : pyval) : list (string * pyval) :=
  [ ("dates", dates);
    ("player_of_match", PList [PStr "V Kohli"]);
    ("teams", teams);
    ("umpires", PList [PStr "A"; PStr "B"]) ].

(** Two documents, the second with an empty ['teams']. *)
Definition empty_teams_docs : list document :=
  [ info_doc "1" (list_fields (PList [PDate 2020 10 5])
                              (PList [PStr "India"; PStr "Australia"]));
    info_doc "2" (list_fields (PList [PDate 2020 10 6]) (PList [])) ].

(** Three documents with one date in January, two in March and none;
    the dates are [datetime.date] values, as the YAML loader reads them. *)
Definition spring_docs : list document :=
  let teams := PList [PStr "India"; PStr "Australia"] in
  [ info_doc "1" (list_fields (PList [PDate 2020 1 5]) teams);
    info_doc "2" (list_fields (PList [PDate 2020 3 15; PDate 2020 3 16]) teams);
    info_doc "3" (list_fields (PList []) teams) ].

(** The same three documents with each date a list of three integers. *)
Definition spring_docs_ints : list document :=
  let teams := PList [PStr "India"; PStr "Australia"] in
  [ info_doc "1" (list_fields (PList [PList [PInt 2020; PInt 1; PInt 5]]) teams);
    info_doc "2" (list_fields (PList [PList [PInt 2020; PInt 3; PInt 15];
                                      PList [PInt 2020; PInt 3; PInt 16]]) teams);
    info_doc "3" (list_fields (PList []) teams) ].

(** Two documents, the second without ['umpires']. *)
Definition no_umpires_docs : list document :=
  [ info_doc "1" (list_fields (PList [PDate 2020 10 5])
                              (PList [PStr "India"; PStr "Australia"]));
    info_doc "2" [ ("dates", PList [PDate 2020 10 6]);
                   ("player_of_match", PList [PStr "V Kohli"]);
                   ("teams", PList [PStr "India"; PStr "Australia"]) ] ].

(** ** Definitions for the rest of the module *)

(** No dictionary of the value, at any depth, has a tuple for a key. *)
Fixpoint plain_keys (v : pyval) : bool :=
  match v with
  | PList l => forallb plain_keys l
  | PDict kvs =>
      forallb (λ kv, match kv with
                     | (KTuple _, _) => false
                     | (_, v') => plain_keys v'
                     end) kvs
  | _ => true
  end.

(** [posixpath.join(a, *p)]: a component that starts with the separator
    replaces what came before, and no separator is added after an empty
    path or one that ends with it. *)
Fixpoint ends_with_sep (s : string) : bool :=
  match s with
  | EmptyString => false
  | String c EmptyString => Ascii.eqb c "/"
  | String _ s' => ends_with_sep s'
  end.

Definition join2 (path b : string) : string :=
  if String.prefix "/" b then b
  else if String.eqb path EmptyString || ends_with_sep path then path +:+ b
  else path +:+ "/" +:+ b.

Definition os_path_join (a : string) (p : list string) : string :=
  List.fold_left join2 p a.

Definition get_data_raw_dir : string := os_path_join ".." ["data"; "raw"].

(** [get_data_interim_dir(date)], [None] being the default. *)
Definition get_data_interim_dir (date : option string) : string :=
  match date with
  | None => os_path_join ".." ["data"; "interim"]
  | Some d => os_path_join ".." ["data"; "interim"; d]
  end.

(** ['{0:s}.zip'.format(date)] in the raw directory. *)
Definition get_data_raw_filename (date : string) : string :=
  os_path_join get_data_raw_dir [date +:+ ".zip"].

(** A character class of the patterns of the module. *)
Inductive cls : Type :=
  | Digit
  | Lit (c : ascii).

Definition accepts (cl : cls) (c : ascii) : bool :=
  match cl with
  | Digit => Py.is_digit c
  | Lit c' => Ascii.eqb c' c
  end.

(** One attempt of a sequence of classes at the start of [s]; the
    answer is what follows the match. *)
Fixpoint match_cls (p : list cls) (s : string) : option string :=
  match p with
  | [] => Some s
  | cl :: p' =>
      match s with
      | EmptyString => None
      | String c s' => if accepts cl c then match_cls p' s' else None
      end
  end.

(** [\d{4}-\d{2}-\d{2}] *)
Definition iso_date : list cls :=
  [Digit; Digit; Digit; Digit; Lit "-"; Digit; Digit; Lit "-"; Digit; Digit].

(** [re.search('(\d{4}-\d{2}-\d{2})', s)], as [group(0)] of the
    leftmost match. *)
Fixpoint search_date (s : string) : option string :=
  match match_cls iso_date s with
  | Some _ => Some (substring 0 10 s)
  | None =>
      match s with
      | EmptyString => None
      | String _ s' => search_date s'
      end
  end.

(** The longest run of digits at the start of [s]: a greedy [\d*]. *)
Fixpoint take_digits (s : string) : string :=
  match s with
  | EmptyString => EmptyString
  | String c s' => if Py.is_digit c then String c (take_digits s') else EmptyString
  end.

(** One attempt of the pattern of line 240, a date, a backslash and
    [(\d+)], at the start of [s]; the answer is [group(0)[11:]], the
    digits after the backslash. *)
Definition match_id (s : string) : option string :=
  match match_cls (iso_date ++ [Lit "\"]) s with
  | Some rest =>
      match take_digits rest with
      | EmptyString => None
      | ds => Some ds
      end
  | None => None
  end.

Fixpoint search_id (s : string) : option string :=
  match match_id s with
  | Some ds => Some ds
  | None =>
      match s with
      | EmptyString => None
      | String _ s' => search_id s'
      end
  end.

(** Line 240: [re.search(...).group(0)[11:]]; without a match
    [re.search] gives [None], which has no [group]. *)
Definition matchid (file : string) : result string :=
  match search_id file with
  | Some ds => Ok ds
  | None => Raise AttributeError
  end.

(** [sorted(l)] on strings: code point order. *)
Fixpoint insert_sorted (x : string) (l : list string) : list string :=
  match l with
  | [] => [x]
  | y :: l' => if String.leb x y then x :: l else y :: insert_sorted x l'
  end.

Definition sorted (l : list string) : list string :=
  List.fold_right insert_sorted [] l.

(** [most_recent_file(directory)], with the names [os.listdir] finds in
    the directory. *)
Definition most_recent_file (directory : string) (listing : list string)
  : result string :=
  f ← py_index (sorted listing) (-1); Ok (os_path_join directory [f]).

Definition most_recent_date (directory : string) (listing : list string)
  : result string :=
  fname ← most_recent_file directory listing;
  match search_date fname with
  | Some d => Ok d
  | None => Raise AttributeError
  end.

(** [gt_sql_db_names] *)
Definition gt_sql_db_names : gset string := {[ "matchinfo"; "delivery" ]}.

Definition get_sql_db_table_names (dbname : string) : result (list string) :=
  match assoc dbname [("matchinfo", ["outcome"]); ("delivery", [])] with
  | Some tbls => Ok tbls
  | None => Raise KeyError
  end.

Definition outcome_table_sql : string :=
  let header := "CREATE TABLE outcome" in
  let colnames := ["ID"; "winner"; "bytype"; "byamt"] in
  let coltypes := ["TEXT PRIMARY KEY"; "TEXT"; "TEXT"; "INTEGER"] in
  let cols := Repr.join ", "
                (List.map (λ p : string * string, p.1 +:+ " " +:+ p.2)
                   (combine colnames coltypes)) in
  header +:+ " (" +:+ cols +:+ ")".

Definition get_sql_db_table_code (dbname tblname : string) : result string :=
  match assoc dbname [("matchinfo", [("outcome", outcome_table_sql)])] with
  | Some tbls =>
      match assoc tblname tbls with
      | Some code => Ok code
      | None => Raise KeyError
      end
  | None => Raise KeyError
  end.

(** ** [add_to_outcomes] *)

(** An argument that is not a list becomes the list of itself. *)
Definition as_list (v : pyval) : list pyval :=
  match v with
  | PList l => l
  | _ => [v]
  end.

(** ['{:s}'.format(v)]: text is taken as it is, a number refuses the
    code, a date hands the code to [strftime], the others take no
    format at all. *)
Definition format_s (v : pyval) : result string :=
  match v with
  | PStr s => Ok s
  | PInt _ => Raise ValueError
  | PDate _ _ _ => Ok "s"
  | PNone | PList _ | PDict _ => Raise TypeError
  end.

(** ['{:d}'.format(v)] *)
Definition format_d (v : pyval) : result string :=
  match v with
  | PInt z => Ok (pretty z)
  | PStr _ => Raise ValueError
  | PDate _ _ _ => Ok "d"
  | PNone | PList _ | PDict _ => Raise TypeError
  end.

(** [zip(a, b, c, d)] stops with the shortest. *)
Fixpoint zip4 (a b c d : list pyval) : list (pyval * pyval * pyval * pyval) :=
  match a, b, c, d with
  | x :: a', y :: b', z :: c', w :: d' => (x, y, z, w) :: zip4 a' b' c' d'
  | _, _, _, _ => []
  end.

(** The statement of one round of the loop, lines 210-214. *)
Definition outcome_statement (row : pyval * pyval * pyval * pyval) : result string :=
  let '(id, winner, bytype, byamt) := row in
  match winner with
  | PNone =>
      i ← format_s id;
      Ok ("INSERT OR IGNORE INTO outcome (ID) VALUES (" +:+ i +:+ ")")
  | _ =>
      i ← format_s id; w ← format_s winner; b ← format_s bytype; a ← format_d byamt;
      Ok ("INSERT OR IGNORE INTO outcome (ID, winner, bytype, byamt) VALUES ("
          +:+ i +:+ ", " +:+ w +:+ ", " +:+ b +:+ ", " +:+ a +:+ ")")
  end.

(** The statements the loop hands to [c.execute], in order, for as long
    as the database accepts them, and how the loop ends as far as the
    formatting decides. *)
Fixpoint statements (rows : list (pyval * pyval * pyval * pyval))
  : list string * result unit :=
  match rows with
  | [] => ([], Ok ())
  | row :: rows' =>
      match outcome_statement row with
      | Ok s => let '(ss, r) := statements rows' in (s :: ss, r)
      | Raise e => ([], Raise e)
      end
  end.

(** [add_to_outcomes(ids, winners, bytypes, byamts)]; an argument left
    out is [None]. *)
Definition add_to_outcomes (ids winners bytypes byamts : pyval)
  : list string * result unit :=
  statements (zip4 (as_list ids) (as_list winners) (as_list bytypes) (as_list byamts)).


(** * Properties *)

(** ** The string primitives on the shapes the module meets *)

Example slice_brackets : Py.slice_1_m1 "['India', 'Australia']" = "'India', 'Australia'".
Proof. reflexivity. Qed.

Example slice_short :
  Py.slice_1_m1 "]" = EmptyString ∧ Py.slice_1_m1 "[]" = EmptyString ∧
  Py.slice_1_m1 "nan" = "a".
Proof. repeat split. Qed.

Example replace_quotes : Py.replace "'" EmptyString "'India', 'Australia'" = "India, Australia".
Proof. reflexivity. Qed.

Example split_teams : Py.split ", " "India, Australia" = Ok ["India"; "Australia"].
Proof. reflexivity. Qed.

Example split_empty : Py.split ", " EmptyString = Ok [EmptyString].
Proof. reflexivity. Qed.

Example findall_two_digit_month :
  Py.findall_date "(2020, 10, 5), (2020, 11, 16)" = ["2020, 10, 5"; "2020, 11, 16"].
Proof. reflexivity. Qed.

Example findall_one_digit_month : Py.findall_date "(2020, 1, 5)" = [].
Proof. reflexivity. Qed.

Example pad_day : Py.sub_month (Py.sub_day "2020-10-5") = "2020-10-05".
Proof. reflexivity. Qed.

Example pad_month : Py.sub_month (Py.sub_day "2020-3-15") = "2020-03-15".
Proof. reflexivity. Qed.

Example pretty_computes : pretty (12 : nat) = "12".
Proof. reflexivity. Qed.

Example demo_edit :
  edit_and_write_info demo_feather =
  Ok (mkDF (Some "MATCHID") [CStr "1001"; CStr "1002"]
      [ ("city", [CStr "Pune"; CStr "nan"]);
        ("outcome.winner", [CStr "India"; CStr "Australia"]);
        ("date.1", [CStr "2020-10-05"; CStr "2020-11-15"]);
        ("date.2", [CNone; CStr "2020-11-16"]);
        ("player_of_matc.1", [CStr "V Kohli"; CStr "SPD Smith"]);
        ("team.1", [CStr "India"; CStr "India"]);
        ("team.2", [CStr "Australia"; CStr "Australia"]);
        ("umpire.1", [CStr "A"; CStr "C"]);
        ("umpire.2", [CStr "B"; CStr "D"]) ]).
Proof. vm_compute. reflexivity. Qed.

Example demo_persist :
  edit_feather_to_sql demo_feather ∅ =
  ( {[ "../data/sqlite/info.sqlite" :=
       {[ "matchinfo" := [ ("MATCHID", [CStr "1001"; CStr "1002"]);
                           ("city", [CStr "Pune"; CStr "nan"]) ];
          "outcome" := [ ("MATCHID", [CStr "1001"; CStr "1002"]);
                         ("outcome.winner", [CStr "India"; CStr "Australia"]) ];
          "date" := [ ("MATCHID", [CStr "1001"; CStr "1002"]);
                      ("date.1", [CStr "2020-10-05"; CStr "2020-11-15"]);
                      ("date.2", [CNone; CStr "2020-11-16"]) ];
          "player_of_matc" := [ ("MATCHID", [CStr "1001"; CStr "1002"]);
                                ("player_of_matc.1", [CStr "V Kohli"; CStr "SPD Smith"]) ];
          "team" := [ ("MATCHID", [CStr "1001"; CStr "1002"]);
                      ("team.1", [CStr "India"; CStr "India"]);
                      ("team.2", [CStr "Australia"; CStr "Australia"]) ];
          "umpire" := [ ("MATCHID", [CStr "1001"; CStr "1002"]);
                        ("umpire.1", [CStr "A"; CStr "C"]);
                        ("umpire.2", [CStr "B"; CStr "D"]) ] ]} ]},
    Raise AttributeError ).
Proof. vm_compute. reflexivity. Qed.

(** ** [access_dict] *)

Lemma access_dict_no_keys (fuel : nat) (dct : pyval) :
  access_dict (S fuel) dct [] = Some (Ok dct).
Proof. reflexivity. Qed.

(** A first key that is missing is reported as [None]. *)
Lemma access_dict_missing (fuel : nat) (kvs : list (key * pyval)) (k : key)
    (rest : list key) :
  lookup_key k kvs = None →
  access_dict (S fuel) (PDict kvs) (k :: rest) = Some (Ok PNone).
Proof. intros Hk. simpl. rewrite Hk. reflexivity. Qed.

(** The second call subscripts with the tuple of the keys that are
    left, even when none is left: a value that is not a dictionary
    refuses it with a [TypeError], which no clause catches. *)
Lemma access_dict_found_leaf (fuel : nat) (dct v : pyval) (k : key)
    (rest : list key) :
  subscript dct k = Ok v →
  is_dict v = false →
  access_dict (S (S fuel)) dct (k :: rest) = Some (Raise TypeError).
Proof.
  intros Hs Hv. cbn [access_dict]. rewrite Hs.
  destruct v; try discriminate Hv; reflexivity.
Qed.

(** A dictionary reached by the first key is subscripted with the tuple
    of the remaining keys, not with the next key. *)
Lemma access_dict_found_dict (fuel : nat) (dct : pyval) (kvs : list (key * pyval))
    (k : key) (rest : list key) :
  subscript dct k = Ok (PDict kvs) →
  lookup_key (KTuple rest) kvs = None →
  access_dict (S (S fuel)) dct (k :: rest) = Some (Ok PNone).
Proof.
  intros Hs Hk. cbn [access_dict]. rewrite Hs. cbn [subscript]. rewrite Hk.
  reflexivity.
Qed.

(** C10, at the input [access_dict({'a': 1}, 'a')]: the lookup of ['a']
    succeeds, and the call raises [TypeError] instead of returning the
    value 1 reached by it; with enough fuel the outcome does not depend
    on the fuel. *)
Theorem access_dict_single_key_raises (fuel : nat) :
  subscript (PDict [(KStr "a", PInt 1)]) (KStr "a") = Ok (PInt 1) ∧
  access_dict (S (S fuel)) (PDict [(KStr "a", PInt 1)]) [KStr "a"]
  = Some (Raise TypeError).
Proof. split; reflexivity. Qed.

(** Two keys into nested dictionaries: every lookup would succeed in
    order, and the answer is [None], not the value. *)
Lemma access_dict_two_keys_none (fuel : nat) :
  access_dict (S (S fuel))
    (PDict [(KStr "a", PDict [(KStr "b", PInt 1)])]) [KStr "a"; KStr "b"]
  = Some (Ok PNone).
Proof. reflexivity. Qed.

(** ** The basename of a list field *)

Lemma basename_plural_fields :
  List.map basename ["dates"; "teams"; "umpires"] = ["date"; "team"; "umpire"] ∧
  List.map spec_basename ["dates"; "teams"; "umpires"] = ["date"; "team"; "umpire"].
Proof. split; reflexivity. Qed.

(** C3, at the field ['player_of_match']: the code takes the last
    character off whatever it is, so the positional columns are named
    [player_of_matc.N]; the name has no plural marker to lose. *)
Theorem basename_player_of_match :
  In "player_of_match" list_cols_info ∧
  basename "player_of_match" = "player_of_matc" ∧
  newcol "player_of_match" 0 = "player_of_matc.1" ∧
  spec_basename "player_of_match" = "player_of_match".
Proof. repeat split; try reflexivity. simpl; tauto. Qed.

(** ** Association lists *)

Section Assoc.
Context {B : Type}.
Implicit Types (l : list (string * B)) (k : string).

Lemma assoc_In k l (v : B) : assoc k l = Some v → In (k, v) l.
Proof.
  induction l as [|[k' v'] l IH]; simpl; [discriminate|].
  destruct (String.eqb_spec k' k) as [->|Hne].
  - intros [= ->]. now left.
  - intros H. right. now apply IH.
Qed.

Lemma assoc_None k l : assoc k l = None ↔ ¬ In k (List.map fst l).
Proof.
  induction l as [|[k' v'] l IH]; simpl; [tauto|].
  destruct (String.eqb_spec k' k) as [->|Hne].
  - split; [discriminate|]. intros H. exfalso. apply H. now left.
  - rewrite IH. tauto.
Qed.

Lemma assoc_is_Some k l : In k (List.map fst l) → ∃ v, assoc k l = Some v.
Proof.
  intros Hin. destruct (assoc k l) as [v|] eqn:E; [eauto|].
  apply assoc_None in E. contradiction.
Qed.

Lemma assoc_names k l (v : B) : assoc k l = Some v → In k (List.map fst l).
Proof. intros H. apply assoc_In in H. now apply (in_map fst) in H. Qed.

Lemma assoc_set_eq k (v : B) l : assoc k (assoc_set k v l) = Some v.
Proof.
  induction l as [|[k' v'] l IH]; simpl.
  - now rewrite String.eqb_refl.
  - destruct (String.eqb_spec k' k) as [->|Hne]; simpl.
    + now rewrite String.eqb_refl.
    + destruct (String.eqb_spec k' k); [contradiction|apply IH].
Qed.

Lemma assoc_set_ne k k' (v : B) l : k' ≠ k → assoc k' (assoc_set k v l) = assoc k' l.
Proof.
  intros Hne. induction l as [|[k0 v0] l IH]; simpl.
  - destruct (String.eqb_spec k k'); [congruence|reflexivity].
  - destruct (String.eqb_spec k0 k) as [->|Hk0]; simpl.
    + destruct (String.eqb_spec k k'); [congruence|reflexivity].
    + destruct (String.eqb_spec k0 k'); [reflexivity|apply IH].
Qed.

Lemma assoc_del_eq k l : assoc k (assoc_del k l) = None.
Proof.
  apply assoc_None. unfold assoc_del. intros Hin.
  apply in_map_iff in Hin as ([k' v] & Hk & Hin). simpl in Hk. subst k'.
  apply filter_In in Hin as [_ Hb]. simpl in Hb.
  now rewrite String.eqb_refl in Hb.
Qed.

Lemma assoc_del_ne k k' l : k' ≠ k → assoc k' (assoc_del k l) = assoc k' l.
Proof.
  intros Hne. induction l as [|[k0 v0] l IH]; simpl; [reflexivity|].
  destruct (String.eqb_spec k0 k) as [->|Hk0]; simpl.
  - destruct (String.eqb_spec k k'); [congruence|apply IH].
  - destruct (String.eqb_spec k0 k'); [reflexivity|apply IH].
Qed.

End Assoc.

Lemma existsb_eqb_In (k : string) (l : list string) :
  existsb (String.eqb k) l = true ↔ In k l.
Proof.
  rewrite existsb_exists. split.
  - intros (x & Hin & Heq). apply String.eqb_eq in Heq. now subst.
  - intros Hin. exists k. split; [assumption|apply String.eqb_refl].
Qed.

(** ** Text before the first dot *)

Lemma tname_of_before_dot (col : string) :
  Py.has_dot col = true → tname_of col = Ok (before_dot col).
Proof.
  unfold tname_of. induction col as [|c col IH]; simpl; [discriminate|].
  destruct (Ascii.eqb c ".") eqn:E; simpl; [reflexivity|].
  intros H. specialize (IH H).
  destruct (Py.index_dot col) as [i|e]; simpl in *; [|discriminate].
  injection IH as IH. now rewrite IH.
Qed.

Lemma tname_of_no_dot (col : string) :
  Py.has_dot col = false → tname_of col = Raise ValueError.
Proof.
  unfold tname_of. induction col as [|c col IH]; simpl; [reflexivity|].
  destruct (Ascii.eqb c ".") eqn:E; simpl; [discriminate|].
  intros H. specialize (IH H).
  destruct (Py.index_dot col) as [i|e]; simpl in *; [discriminate|].
  now injection IH as ->.
Qed.

Lemma before_dot_no_dot (s : string) : Py.has_dot (before_dot s) = false.
Proof.
  induction s as [|c s IH]; simpl; [reflexivity|].
  destruct (Ascii.eqb c ".") eqn:E; simpl; [reflexivity|]. now rewrite E.
Qed.

Lemma before_dot_app (a b : string) :
  Py.has_dot a = false → before_dot (a +:+ "." +:+ b) = a.
Proof.
  induction a as [|c a IH]; simpl; [reflexivity|].
  destruct (Ascii.eqb c "."); simpl; [discriminate|].
  intros H. now rewrite IH.
Qed.

Lemma has_dot_app (a b : string) : Py.has_dot (a +:+ "." +:+ b) = true.
Proof.
  induction a as [|c a IH]; simpl; [reflexivity|].
  rewrite IH. apply orb_true_r.
Qed.

(** ** Grouping the dotted columns *)

Section AppendTo.
Context {B : Type}.
Implicit Types (l : list (string * list B)) (k : string) (v : B).

Lemma assoc_append_to_eq k v l :
  assoc k (append_to k v l) = Some (default [] (assoc k l) ++ [v]).
Proof.
  induction l as [|[k' vs] l IH]; simpl.
  - now rewrite String.eqb_refl.
  - destruct (String.eqb_spec k' k) as [->|Hne]; simpl.
    + now rewrite String.eqb_refl.
    + destruct (String.eqb_spec k' k); [contradiction|apply IH].
Qed.

Lemma assoc_append_to_ne k k' v l :
  k' ≠ k → assoc k' (append_to k v l) = assoc k' l.
Proof.
  intros Hne. induction l as [|[k0 vs] l IH]; simpl.
  - destruct (String.eqb_spec k k'); [congruence|reflexivity].
  - destruct (String.eqb_spec k0 k) as [->|Hk0]; simpl.
    + destruct (String.eqb_spec k k'); [congruence|reflexivity].
    + destruct (String.eqb_spec k0 k'); [reflexivity|apply IH].
Qed.

Lemma names_append_to k v l :
  List.map fst (append_to k v l)
  = if existsb (String.eqb k) (List.map fst l) then List.map fst l
    else List.map fst l ++ [k].
Proof.
  induction l as [|[k' vs] l IH]; simpl; [reflexivity|].
  rewrite (String.eqb_sym k k').
  destruct (String.eqb_spec k' k) as [->|Hne]; simpl; [reflexivity|].
  rewrite IH. now destruct (existsb (String.eqb k) (List.map fst l)).
Qed.

Lemma NoDup_append_to k v l :
  List.NoDup (List.map fst l) → List.NoDup (List.map fst (append_to k v l)).
Proof.
  intros Hnd. rewrite names_append_to.
  destruct (existsb (String.eqb k) (List.map fst l)) eqn:E; [assumption|].
  apply List.NoDup_app; [assumption|repeat constructor; simpl; tauto|].
  intros x Hx [<-|[]]. apply existsb_eqb_In in Hx. congruence.
Qed.

Lemma Permutation_append_to k v l :
  Permutation (concat (List.map snd (append_to k v l)))
              (concat (List.map snd l) ++ [v]).
Proof.
  induction l as [|[k' vs] l IH]; simpl; [reflexivity|].
  destruct (String.eqb k' k); simpl.
  - rewrite <-!app_assoc. apply Permutation_app_head. apply Permutation_app_comm.
  - rewrite IH. now rewrite app_assoc.
Qed.

Lemma In_append_to k v l (t : string) (cs : list B) (c : B) :
  In (t, cs) (append_to k v l) → In c cs →
  (c = v ∧ t = k) ∨ (∃ cs0, In (t, cs0) l ∧ In c cs0).
Proof.
  induction l as [|[k' vs] l IH]; simpl.
  - intros [[= <- <-]|[]] [<-|[]]. now left.
  - destruct (String.eqb_spec k' k) as [->|Hne]; simpl.
    + intros [[= <- <-]|Hin] Hc.
      * apply in_app_or in Hc as [Hc|[<-|[]]]; [right|now left]. eauto.
      * right. eauto.
    + intros [[= <- <-]|Hin] Hc; [right; eauto|].
      destruct (IH Hin Hc) as [?|(cs0 & ? & ?)]; [now left|right; eauto].
Qed.

End AppendTo.

Lemma col_to_table_step_ok (acc : list (string * list string)) (c : string) :
  Py.has_dot c = true →
  col_to_table_step acc c = Ok (append_to (before_dot c) c acc).
Proof. intros Hc. unfold col_to_table_step. now rewrite (tname_of_before_dot _ Hc). Qed.

Lemma col_to_table_grouped (cols : list string) (acc : list (string * list string)) :
  List.Forall (λ c, Py.has_dot c = true) cols →
  for_each col_to_table_step cols acc = Ok (grouped cols acc).
Proof.
  revert acc. induction cols as [|c cols IH]; intros acc Hd; [reflexivity|].
  inversion Hd as [|? ? Hc Hcols]; subst. cbn [for_each].
  rewrite (col_to_table_step_ok _ _ Hc). now apply IH.
Qed.

Lemma grouped_NoDup (cols : list string) (acc : list (string * list string)) :
  List.NoDup (List.map fst acc) → List.NoDup (List.map fst (grouped cols acc)).
Proof.
  revert acc. induction cols as [|c cols IH]; intros acc Hnd; [assumption|].
  simpl. apply IH. now apply NoDup_append_to.
Qed.

Lemma grouped_Permutation (cols : list string) (acc : list (string * list string)) :
  Permutation (concat (List.map snd (grouped cols acc)))
              (concat (List.map snd acc) ++ cols).
Proof.
  revert acc. induction cols as [|c cols IH]; intros acc; simpl.
  - now rewrite app_nil_r.
  - rewrite IH, Permutation_append_to. now rewrite <-app_assoc.
Qed.

(** A column sits only in the group named by its prefix. *)
Lemma grouped_In (cols : list string) (acc : list (string * list string))
    (t : string) (cs : list string) (c : string) :
  In (t, cs) (grouped cols acc) → In c cs →
  (In c cols ∧ t = before_dot c) ∨ (∃ cs0, In (t, cs0) acc ∧ In c cs0).
Proof.
  revert acc. induction cols as [|c0 cols IH]; intros acc Hin Hc; simpl in *.
  - right. eauto.
  - destruct (IH _ Hin Hc) as [[? ?]|(cs0 & Hin0 & Hc0)]; [left; tauto|].
    destruct (In_append_to _ _ _ _ _ _ Hin0 Hc0) as [[-> ->]|?]; [left|right]; tauto.
Qed.

(** A column once in its group stays there. *)
Lemma grouped_keeps (cols : list string) (acc : list (string * list string))
    (t : string) (cs : list string) (c : string) :
  assoc t acc = Some cs → In c cs →
  ∃ cs', assoc t (grouped cols acc) = Some cs' ∧ In c cs'.
Proof.
  revert acc cs. induction cols as [|c0 cols IH]; intros acc cs Ha Hc; simpl.
  - eauto.
  - destruct (String.eqb_spec (before_dot c0) t) as [<-|Hne].
    + apply (IH _ (cs ++ [c0])).
      * rewrite assoc_append_to_eq, Ha. reflexivity.
      * apply in_or_app. now left.
    + apply (IH _ cs); [|assumption].
      rewrite assoc_append_to_ne; [assumption|congruence].
Qed.

Lemma grouped_has (cols : list string) (acc : list (string * list string))
    (c : string) :
  In c cols → ∃ cs, assoc (before_dot c) (grouped cols acc) = Some cs ∧ In c cs.
Proof.
  revert acc. induction cols as [|c0 cols IH]; intros acc Hin; [destruct Hin|].
  destruct Hin as [<-|Hin]; simpl.
  - eapply grouped_keeps; [apply assoc_append_to_eq|].
    apply in_or_app. right. now left.
  - now apply IH.
Qed.

(** ** Routing the columns of a frame *)

Lemma names_filter_dot (df : DataFrame) :
  names (Frame.filter_dot df) = List.filter Py.has_dot (names df).
Proof.
  unfold names, Frame.filter_dot. simpl.
  induction (columns df) as [|[k v] l IH]; simpl; [reflexivity|].
  destruct (Py.has_dot k); simpl; now rewrite IH.
Qed.

Lemma drop_labels_dotted (df : DataFrame) :
  Frame.drop_labels (names (Frame.filter_dot df)) df
  = Ok (with_columns df (List.filter (λ kv, negb (Py.has_dot kv.1)) (columns df))).
Proof.
  unfold Frame.drop_labels. rewrite names_filter_dot.
  replace (forallb _ _) with true.
  - f_equal. f_equal. apply filter_ext_in. intros [k v] Hin. simpl. f_equal.
    destruct (Py.has_dot k) eqn:E.
    + apply existsb_eqb_In, filter_In. split; [|assumption].
      now apply (in_map fst) in Hin.
    + destruct (existsb _ _) eqn:E'; [|reflexivity].
      apply existsb_eqb_In, filter_In in E' as [_ E']. congruence.
  - symmetry. apply forallb_forall. intros l Hl.
    apply existsb_eqb_In. now apply filter_In in Hl as [Hl _].
Qed.

Lemma names_no_period (df : DataFrame) :
  names (with_columns df (List.filter (λ kv, negb (Py.has_dot kv.1)) (columns df)))
  = List.filter (λ n, negb (Py.has_dot n)) (names df).
Proof.
  unfold names. simpl.
  induction (columns df) as [|[k v] l IH]; simpl; [reflexivity|].
  destruct (Py.has_dot k); simpl; now rewrite IH.
Qed.

Lemma select_cols_names (labels : list string) (cs : list (string * list cell)) :
  (∀ l, In l labels → In l (List.map fst cs)) →
  ∃ sel, Frame.select_cols labels cs = Ok sel ∧ List.map fst sel = labels.
Proof.
  induction labels as [|l labels IH]; intros Hsub; simpl.
  - now exists [].
  - destruct (assoc_is_Some l cs) as [v ->]; [apply Hsub; now left|].
    destruct IH as (sel & -> & Hn); [intros; apply Hsub; now right|].
    exists ((l, v) :: sel). simpl. now rewrite Hn.
Qed.

Lemma Permutation_filter_split {A : Type} (f : A → bool) (l : list A) :
  Permutation (List.filter (λ x, negb (f x)) l ++ List.filter f l) l.
Proof.
  induction l as [|a l IH]; simpl; [reflexivity|].
  destruct (f a); simpl.
  - rewrite <-Permutation_middle. now constructor.
  - now constructor.
Qed.

(** Every group can be cut out of the dotted columns. *)
Lemma groups_selectable (df : DataFrame) :
  List.Forall (λ e, ∃ sel, Frame.select e.2 (Frame.filter_dot df)
                           = Ok (with_columns df sel) ∧ List.map fst sel = e.2)
    (grouped (names (Frame.filter_dot df)) []).
Proof.
  apply List.Forall_forall. intros [t cs] Hin. simpl.
  destruct (select_cols_names cs (columns (Frame.filter_dot df))) as (sel & Hsel & Hn).
  - intros l Hl. destruct (grouped_In _ _ _ _ _ Hin Hl) as [[H _]|(? & [] & _)].
    exact H.
  - exists sel. unfold Frame.select. rewrite Hsel. split; [reflexivity|exact Hn].
Qed.

(** The frames of lines 285-297, before anything is written: a name
    without a dot is in the primary frame and in no group, a name with
    a dot in the one group named by the text before its first dot, and
    the frames together hold each column exactly as often as the table
    does. *)
Lemma columns_partitioned (df : DataFrame) (col : string) :
  In col (names df) → routed df col.
Proof.
  intros Hcol. unfold routed.
  set (dotted := names (Frame.filter_dot df)).
  assert (Hdotted : dotted = List.filter Py.has_dot (names df))
    by apply names_filter_dot.
  assert (Hall : List.Forall (λ c, Py.has_dot c = true) dotted).
  { apply List.Forall_forall. intros c Hc. rewrite Hdotted in Hc.
    now apply filter_In in Hc. }
  eexists _, (grouped dotted []).
  split; [apply drop_labels_dotted|].
  split; [now apply col_to_table_grouped|].
  split; [apply grouped_NoDup; constructor|].
  rewrite names_no_period.
  split; [|split; [|split]].
  - apply List.Forall_impl with (2 := groups_selectable df).
    intros e (sel & Hsel & Hn). rewrite Hsel. eauto.
  - intros Hnd. split.
    + apply filter_In. split; [assumption|]. now rewrite Hnd.
    + intros t cs Hin Hc.
      destruct (grouped_In _ _ _ _ _ Hin Hc) as [[H _]|(? & [] & _)].
      rewrite Hdotted in H. apply filter_In in H as [_ H]. congruence.
  - intros Hd. split.
    + intros H. apply filter_In in H as [_ H]. rewrite Hd in H. discriminate.
    + assert (Hin : In col dotted) by (rewrite Hdotted; now apply filter_In).
      destruct (grouped_has dotted [] col Hin) as (cs & Ha & Hc).
      exists (before_dot col), cs.
      split; [now apply tname_of_before_dot|].
      split; [assumption|]. split; [assumption|].
      intros t' cs' Hin' Hc'.
      destruct (grouped_In _ _ _ _ _ Hin' Hc') as [[_ H]|(? & [] & _)].
      exact H.
  - rewrite grouped_Permutation. simpl. rewrite Hdotted.
    apply Permutation_filter_split.
Qed.

Lemma columns_partitioned_witness :
  In "team.1" (names demo_info) ∧ routed demo_info "team.1".
Proof.
  split.
  - simpl. tauto.
  - apply (columns_partitioned demo_info "team.1"). simpl. tauto.
Defined.

(** ** A satellite named like the primary relation *)


(** ** Writes to one sqlite file *)

Lemma lookup_apply_writes (ws : list (string * relation)) (db : gmap string relation)
    (t : string) :
  apply_writes ws db !! t
  = match last_write t ws with
    | Some r => Some r
    | None => db !! t
    end.
Proof.
  unfold apply_writes. revert db.
  induction ws as [|[t' r'] ws IH]; intros db; simpl; [reflexivity|].
  rewrite IH. destruct (last_write t ws); [reflexivity|].
  destruct (String.eqb_spec t' t) as [->|Hne].
  - apply lookup_insert_eq.
  - now apply lookup_insert_ne.
Qed.

(** Writing the same relations again changes nothing. *)
Lemma apply_writes_idemp (ws : list (string * relation)) (db : gmap string relation) :
  apply_writes ws (apply_writes ws db) = apply_writes ws db.
Proof.
  apply map_eq. intros t. rewrite !lookup_apply_writes.
  now destruct (last_write t ws).
Qed.

Lemma last_write_In (t : string) (ws : list (string * relation)) (r : relation) :
  last_write t ws = Some r → In (t, r) ws.
Proof.
  induction ws as [|[t' r'] ws IH]; simpl; [discriminate|].
  destruct (last_write t ws).
  - intros [= ->]. right. now apply IH.
  - destruct (String.eqb_spec t' t) as [->|]; [|discriminate].
    intros [= ->]. now left.
Qed.

Lemma to_sql_insert (df : DataFrame) (name conn : string)
    (db : gmap string relation) (st : store) :
  to_sql df name conn (<[conn := db]> st)
  = (<[conn := <[name := as_relation df]> db]> st, Ok ()).
Proof.
  unfold to_sql. rewrite lookup_insert_eq. simpl. now rewrite insert_insert_eq.
Qed.

Lemma apply_writes_snoc (ws : list (string * relation)) (w : string * relation)
    (db : gmap string relation) :
  apply_writes (ws ++ [w]) db = <[w.1 := w.2]> (apply_writes ws db).
Proof. unfold apply_writes. now rewrite fold_left_app. Qed.

(** The loop over [col_to_table], lines 296-298, as a list of writes
    that does not depend on what the file holds. *)
Lemma satellites_written (period_df : DataFrame) (conn : string)
    (c2t : list (string * list string)) :
  List.Forall (λ e, ∃ tmp, Frame.select e.2 period_df = Ok tmp) c2t →
  ∃ ws : list (string * relation),
    List.Forall2 (λ e w, w.1 = e.1 ∧
       ∃ tmp, Frame.select e.2 period_df = Ok tmp ∧ w.2 = as_relation tmp) c2t ws ∧
    ∀ (pre : list (string * relation)) (db : gmap string relation) (st : store),
      for_eachM (λ entry : string * list string,
                   tmp ← lift (Frame.select entry.2 period_df);
                   to_sql tmp entry.1 conn) c2t (<[conn := apply_writes pre db]> st)
      = (<[conn := apply_writes (pre ++ ws) db]> st, Ok ()).
Proof.
  induction c2t as [|[t cs] c2t IH]; intros Hall.
  - exists []. split; [constructor|]. intros pre db st. now rewrite app_nil_r.
  - inversion Hall as [|? ? [tmp Htmp] Hrest]; subst. simpl in Htmp.
    destruct (IH Hrest) as (ws & Hws & Hrun).
    exists ((t, as_relation tmp) :: ws). split.
    + constructor; [|assumption]. simpl. eauto.
    + intros pre db st. cbn [for_eachM]. unfold mbind at 1, M_bind.
      unfold mbind at 1, M_bind. unfold lift at 1. simpl. rewrite Htmp.
      rewrite to_sql_insert.
      change (<[t:=as_relation tmp]> (apply_writes pre db))
        with (<[(t, as_relation tmp).1:=(t, as_relation tmp).2]> (apply_writes pre db)).
      rewrite <-apply_writes_snoc, Hrun. now rewrite <-app_assoc.
Qed.

(** ** The persist step *)

(** One round of the loop over the frames, for a frame that is there
    and a name [get_sql_db_fname] knows: the primary relation, then one
    relation per group, each with the index of the frame in front. *)
Lemma persist_some (df : DataFrame) (dbname conn : string) :
  get_sql_db_fname (Some dbname) = Fname conn →
  ∃ ws : list (string * relation),
    List.Forall (λ w, ∃ cols, w.2 = (index_label df, index df) :: cols) ws ∧
    (∃ primary ws', ws = (dbname, as_relation primary) :: ws' ∧
       Frame.drop_labels (names (Frame.filter_dot df)) df = Ok primary) ∧
    ∀ st : store,
      persist (Some df) dbname st
      = (<[conn := apply_writes ws (default ∅ (st !! conn))]> st, Ok ()).
Proof.
  intros Hconn.
  pose proof (groups_selectable df) as Hsel.
  destruct (satellites_written (Frame.filter_dot df) conn
              (grouped (names (Frame.filter_dot df)) [])) as (ws & Hws & Hrun).
  { apply List.Forall_impl with (2 := Hsel). intros e (sel & H & _). eauto. }
  set (primary := with_columns df
         (List.filter (λ kv, negb (Py.has_dot kv.1)) (columns df))).
  exists ((dbname, as_relation primary) :: ws). split; [|split].
  - constructor; [simpl; eauto|].
    clear Hrun. induction Hws as [|e w c2t ws (_ & tmp & Htmp & Hw) _ IH];
      constructor.
    + apply List.Forall_inv in Hsel as (sel & Hs & _).
      rewrite Hs in Htmp. injection Htmp as <-. exists sel. exact Hw.
    + apply IH. now apply List.Forall_inv_tail in Hsel.
  - exists primary, ws. split; [reflexivity|apply drop_labels_dotted].
  - intros st. unfold persist, col_to_table. cbv zeta.
    rewrite drop_labels_dotted, Hconn.
    rewrite col_to_table_grouped.
    2:{ apply List.Forall_forall. intros c Hc. rewrite names_filter_dot in Hc.
        now apply filter_In in Hc. }
    unfold mbind at 1, M_bind. unfold lift at 1.
    unfold mbind at 1, M_bind. unfold connect, mret, M_ret.
    unfold mbind at 1, M_bind. unfold to_sql at 1.
    unfold mbind at 1, M_bind. unfold lift at 1.
    specialize (Hrun [(dbname, as_relation primary)] (default ∅ (st !! conn)) st).
    simpl in Hrun. exact Hrun.
Qed.

Lemma persist_none (dbname : string) (st : store) :
  persist None dbname st = (st, Raise AttributeError).
Proof. reflexivity. Qed.

(** ** The index of the edited frame *)

Lemma add_positional_index (col : string) (vals : list (list string)) (n : nat)
    (info : DataFrame) :
  index_name (add_positional col vals n info) = index_name info ∧
  index (add_positional col vals n info) = index info.
Proof.
  unfold add_positional. generalize (seq 0 n). intros l. revert info.
  induction l as [|i l IH]; intros info; simpl; [tauto|].
  destruct (IH (Frame.setitem (newcol col i) (positional i vals) info)) as [-> ->].
  tauto.
Qed.

Lemma expand_col_index (info info' : DataFrame) (col : string) :
  expand_col info col = Ok info' →
  index_name info' = index_name info ∧ index info' = index info.
Proof.
  unfold expand_col.
  destruct (Frame.getitem col info) as [cells|]; simpl; [|discriminate].
  destruct (parse_vals col cells) as [vals|]; simpl; [|discriminate].
  destruct (py_max (List.map length vals)) as [n|]; simpl; [|discriminate].
  unfold Frame.drop. destruct (assoc col _); [|discriminate].
  intros [= <-]. simpl. apply add_positional_index.
Qed.

Lemma for_each_expand_index (cols : list string) (info out : DataFrame) :
  for_each expand_col cols info = Ok out →
  index_name out = index_name info ∧ index out = index info.
Proof.
  revert info. induction cols as [|c cols IH]; intros info; simpl.
  - intros [= <-]. tauto.
  - destruct (expand_col info c) as [info'|] eqn:E; simpl; [|discriminate].
    intros H. apply IH in H as [-> ->]. now apply expand_col_index in E.
Qed.

(** The index of the edited frame is the ['ID'] column under the name
    ['MATCHID']. *)
Lemma edit_and_write_info_index (feather info : DataFrame) :
  edit_and_write_info feather = Ok info →
  index_name info = Some "MATCHID" ∧
  Frame.getitem "MATCHID" (Frame.rename "ID" "MATCHID" feather) = Ok (index info).
Proof.
  unfold edit_and_write_info, Frame.set_index, Frame.getitem.
  destruct (assoc "MATCHID" _) as [ids|]; [|discriminate].
  unfold mbind, result_bind.
  intros H. apply for_each_expand_index in H as [-> ->]. tauto.
Qed.

(** ** [edit_feather_to_sql] as writes to the 'matchinfo' file *)

Lemma edit_feather_to_sql_raise (feather : DataFrame) (e : exn) (st : store) :
  edit_and_write_info feather = Raise e →
  edit_feather_to_sql feather st = (st, Raise e).
Proof.
  intros H. unfold edit_feather_to_sql, mbind, M_bind, lift. now rewrite H.
Qed.

(** When the info frame can be edited, the run writes its primary
    relation and its satellites to the one file and then stops on the
    innings frame, which is [None]. *)
Lemma edit_feather_to_sql_ok (feather info : DataFrame) :
  edit_and_write_info feather = Ok info →
  ∃ ws : list (string * relation),
    List.Forall (λ w, ∃ cols, w.2 = ("MATCHID", index info) :: cols) ws ∧
    (∃ primary ws', ws = ("matchinfo", as_relation primary) :: ws' ∧
       Frame.drop_labels (names (Frame.filter_dot info)) info = Ok primary) ∧
    ∀ st : store,
      edit_feather_to_sql feather st
      = (<[info_sqlite := apply_writes ws (default ∅ (st !! info_sqlite))]> st,
         Raise AttributeError).
Proof.
  intros Hinfo.
  destruct (persist_some info "matchinfo" info_sqlite eq_refl) as (ws & Hws & Hp & Hrun).
  exists ws. split; [|split; [exact Hp|]].
  - apply edit_and_write_info_index in Hinfo as [Hn _].
    unfold index_label in Hws. rewrite Hn in Hws. exact Hws.
  - intros st. unfold edit_feather_to_sql.
    unfold mbind at 1, M_bind. unfold lift at 1. rewrite Hinfo.
    cbn [for_eachM fst snd]. unfold mbind at 1, M_bind. rewrite Hrun.
    unfold mbind at 1, M_bind. now rewrite persist_none.
Qed.

(** The general shape of a run whose info frame can be edited: it ends
    in the [AttributeError] of [None.filter], and no file but the
    'matchinfo' one is touched. *)
Lemma run_stops_at_innings (feather info : DataFrame) (st : store) :
  edit_and_write_info feather = Ok info →
  (edit_feather_to_sql feather st).2 = Raise AttributeError ∧
  ∀ conn, conn ≠ info_sqlite → (edit_feather_to_sql feather st).1 !! conn = st !! conn.
Proof.
  intros Hinfo. destruct (edit_feather_to_sql_ok _ _ Hinfo) as (ws & _ & _ & Hrun).
  rewrite Hrun. simpl. split; [reflexivity|].
  intros conn Hne. now apply lookup_insert_ne.
Qed.

(** C7: whatever relation the persist step leaves in a file was either
    there before, untouched, or starts with the identifier column
    ['MATCHID'] holding the index of the info frame; so the primary
    relation and every satellite written carry the join key. *)
Theorem persisted_partitions_carry_matchid (feather : DataFrame) (st : store)
    (conn : string) (db : gmap string relation) (tbl : string) (rel : relation) :
  (edit_feather_to_sql feather st).1 !! conn = Some db →
  db !! tbl = Some rel →
  (∃ db0, st !! conn = Some db0 ∧ db0 !! tbl = Some rel) ∨
  (∃ info cols, edit_and_write_info feather = Ok info ∧
                rel = ("MATCHID", index info) :: cols).
Proof.
  intros Hdb Hrel.
  destruct (edit_and_write_info feather) as [info|e] eqn:Hinfo.
  - destruct (edit_feather_to_sql_ok _ _ Hinfo) as (ws & Hws & _ & Hrun).
    rewrite Hrun in Hdb. simpl in Hdb.
    destruct (decide (conn = info_sqlite)) as [->|Hne].
    + rewrite lookup_insert_eq in Hdb. injection Hdb as <-.
      rewrite lookup_apply_writes in Hrel.
      destruct (last_write tbl ws) as [r|] eqn:Hlast.
      * injection Hrel as ->. apply last_write_In in Hlast.
        rewrite List.Forall_forall in Hws.
        destruct (Hws _ Hlast) as (cols & Hcols). simpl in Hcols. right. eauto.
      * left. destruct (st !! info_sqlite) as [db0|]; simpl in Hrel.
        -- eauto.
        -- rewrite lookup_empty in Hrel. discriminate.
    + rewrite lookup_insert_ne in Hdb by congruence. left. eauto.
  - rewrite (edit_feather_to_sql_raise _ _ _ Hinfo) in Hdb. left. eauto.
Qed.

Lemma persisted_partitions_carry_matchid_witness :
  (∃ db0 : gmap string relation,
     (∅ : store) !! info_sqlite = Some db0 ∧
     db0 !! "team" = Some [ ("MATCHID", [CStr "1001"; CStr "1002"]);
                            ("team.1", [CStr "India"; CStr "India"]);
                            ("team.2", [CStr "Australia"; CStr "Australia"]) ]) ∨
  (∃ info cols, edit_and_write_info demo_feather = Ok info ∧
     [ ("MATCHID", [CStr "1001"; CStr "1002"]);
       ("team.1", [CStr "India"; CStr "India"]);
       ("team.2", [CStr "Australia"; CStr "Australia"]) ]
     = ("MATCHID", index info) :: cols).
Proof.
  apply (persisted_partitions_carry_matchid demo_feather ∅ info_sqlite
           (default ∅ ((edit_feather_to_sql demo_feather ∅).1 !! info_sqlite))
           "team").
  - vm_compute. reflexivity.
  - vm_compute. reflexivity.
Defined.

(** C8, at the run on [demo_feather] with nothing stored before:
    [edit_and_write_innings] hands back [None] and ['innings'] is not a
    name [get_sql_db_fname] knows, so the run ends in an
    [AttributeError] after the 'matchinfo' relations; the only file is
    the 'matchinfo' one and it has no relation ['innings']. *)
Theorem innings_relation_not_persisted :
  edit_and_write_innings = None ∧
  get_sql_db_fname (Some "innings") = get_sql_db_fname None ∧
  (edit_feather_to_sql demo_feather ∅).2 = Raise AttributeError ∧
  dom (edit_feather_to_sql demo_feather ∅).1 = {[ info_sqlite ]} ∧
  (edit_feather_to_sql demo_feather ∅).1 !! info_sqlite ≫= (.!! "innings") = None ∧
  (edit_feather_to_sql demo_feather ∅).1 !! info_sqlite ≫= (.!! "matchinfo")
  = Some [ ("MATCHID", [CStr "1001"; CStr "1002"]);
           ("city", [CStr "Pune"; CStr "nan"]) ].
Proof.
  repeat split; vm_compute; reflexivity.
Qed.

(** C9: a second run on the same frame leaves every file as the first
    run left it, and ends as the first did. *)
Theorem persist_twice_same (feather : DataFrame) (st : store) :
  edit_feather_to_sql feather (edit_feather_to_sql feather st).1
  = edit_feather_to_sql feather st.
Proof.
  destruct (edit_and_write_info feather) as [info|e] eqn:Hinfo.
  - destruct (edit_feather_to_sql_ok _ _ Hinfo) as (ws & _ & _ & Hrun).
    rewrite !Hrun. simpl. rewrite lookup_insert_eq. simpl.
    now rewrite apply_writes_idemp, insert_insert_eq.
  - now rewrite !(edit_feather_to_sql_raise _ _ _ Hinfo).
Qed.

(** ** The names of the positional columns *)

Lemma append_cancel_l (a b c : string) : a +:+ b = a +:+ c → b = c.
Proof. induction a as [|x a IH]; simpl; [tauto|]. intros [= H]. now apply IH. Qed.

Lemma newcol_inj (col : string) (k k' : nat) : newcol col k = newcol col k' → k = k'.
Proof.
  unfold newcol. intros H. apply append_cancel_l, append_cancel_l in H.
  apply (inj pretty) in H. lia.
Qed.

Lemma newcol_has_dot (col : string) (k : nat) : Py.has_dot (newcol col k) = true.
Proof. apply has_dot_app. Qed.

Lemma newcol_before_dot (col : string) (k : nat) :
  Py.has_dot (basename col) = false → before_dot (newcol col k) = basename col.
Proof. apply before_dot_app. Qed.

Lemma newcol_not_plain (col c : string) (k : nat) :
  Py.has_dot c = false → newcol col k ≠ c.
Proof. intros Hc <-. rewrite newcol_has_dot in Hc. discriminate. Qed.

Lemma newcol_apart (c c' : string) (k k' : nat) :
  Py.has_dot (basename c) = false → Py.has_dot (basename c') = false →
  basename c ≠ basename c' → newcol c k ≠ newcol c' k'.
Proof.
  intros Hc Hc' Hne Heq. apply Hne.
  rewrite <-(newcol_before_dot c k Hc), <-(newcol_before_dot c' k' Hc').
  now rewrite Heq.
Qed.

(** ** Lines 324-328 on one list field *)

Lemma add_positional_new (col : string) (vals : list (list string)) (n k : nat)
    (info : DataFrame) :
  k < n →
  assoc (newcol col k) (columns (add_positional col vals n info))
  = Some (positional k vals).
Proof.
  unfold add_positional. intros Hk.
  assert (Hin : In k (seq 0 n)) by (apply in_seq; lia).
  revert Hin. generalize (seq 0 n). intros l.
  induction l as [|i l IH] using rev_ind; intros Hin; [destruct Hin|].
  rewrite fold_left_app. simpl.
  destruct (decide (i = k)) as [->|Hne].
  - apply assoc_set_eq.
  - rewrite assoc_set_ne.
    + apply IH. apply in_app_or in Hin as [Hin|[Hin|[]]]; [assumption|contradiction].
    + intros Heq. apply newcol_inj in Heq. congruence.
Qed.

Lemma add_positional_other (col : string) (vals : list (list string)) (n : nat)
    (info : DataFrame) (name : string) :
  (∀ k, k < n → name ≠ newcol col k) →
  assoc name (columns (add_positional col vals n info)) = assoc name (columns info).
Proof.
  unfold add_positional. intros Hne.
  assert (Hl : ∀ k, In k (seq 0 n) → name ≠ newcol col k).
  { intros k Hk. apply Hne. apply in_seq in Hk. lia. }
  revert Hl. generalize (seq 0 n). intros l.
  induction l as [|i l IH] using rev_ind; intros Hl; [reflexivity|].
  rewrite fold_left_app. simpl. rewrite assoc_set_ne.
  - apply IH. intros k Hk. apply Hl, in_or_app. now left.
  - apply Hl, in_or_app. right. now left.
Qed.

(** What one round of the loop needs and what it leaves. *)
Lemma expand_col_inv (info info' : DataFrame) (col : string) :
  expand_col info col = Ok info' →
  ∃ cells vals n,
    assoc col (columns info) = Some cells ∧
    parse_vals col cells = Ok vals ∧
    py_max (List.map length vals) = Ok n ∧
    columns info' = assoc_del col (columns (add_positional col vals n info)).
Proof.
  unfold expand_col, Frame.getitem.
  destruct (assoc col (columns info)) as [cells|] eqn:Hc; simpl; [|discriminate].
  destruct (parse_vals col cells) as [vals|] eqn:Hv; simpl; [|discriminate].
  destruct (py_max (List.map length vals)) as [n|] eqn:Hn; simpl; [|discriminate].
  unfold Frame.drop.
  destruct (assoc col (columns (add_positional col vals n info))); [|discriminate].
  intros [= <-]. exists cells, vals, n. repeat split; assumption.
Qed.

Lemma expand_col_other (info info' : DataFrame) (col name : string) :
  expand_col info col = Ok info' →
  name ≠ col → (∀ k, name ≠ newcol col k) →
  assoc name (columns info') = assoc name (columns info).
Proof.
  intros H Hne Hnew. apply expand_col_inv in H as (cells & vals & n & _ & _ & _ & ->).
  rewrite assoc_del_ne by assumption. apply add_positional_other. auto.
Qed.

Lemma expand_col_positional (info info' : DataFrame) (col : string) :
  expand_col info col = Ok info' →
  Py.has_dot col = false →
  ∃ cells vals n,
    assoc col (columns info) = Some cells ∧
    parse_vals col cells = Ok vals ∧
    py_max (List.map length vals) = Ok n ∧
    ∀ k, assoc (newcol col k) (columns info')
         = if Nat.ltb k n then Some (positional k vals)
           else assoc (newcol col k) (columns info).
Proof.
  intros H Hdot. apply expand_col_inv in H as (cells & vals & n & Hc & Hv & Hn & ->).
  exists cells, vals, n. repeat split; try assumption.
  intros k. rewrite assoc_del_ne by now apply newcol_not_plain.
  destruct (Nat.ltb_spec k n) as [Hk|Hk].
  - now apply add_positional_new.
  - apply add_positional_other. intros k' Hk' Heq. apply newcol_inj in Heq. lia.
Qed.

(** The whole loop, for a name it neither reads nor writes. *)
Lemma for_each_expand_other (cols : list string) (info out : DataFrame) (name : string) :
  for_each expand_col cols info = Ok out →
  ¬ In name cols → (∀ c k, In c cols → name ≠ newcol c k) →
  assoc name (columns out) = assoc name (columns info).
Proof.
  revert info. induction cols as [|c cols IH]; intros info; cbn [for_each].
  - intros [= <-]. reflexivity.
  - destruct (expand_col info c) as [info'|] eqn:E; cbn; [|discriminate].
    intros H Hnin Hnew. rewrite (IH _ H).
    + apply (expand_col_other _ _ _ _ E).
      * intros ->. apply Hnin. now left.
      * intros k. apply Hnew. now left.
    + intros Hin. apply Hnin. now right.
    + intros c' k Hin. apply Hnew. now right.
Qed.

(** The whole loop, for one of its list fields: the field is read as
    the frame came in, and its positional columns are there as the
    round for the field left them. *)
Lemma for_each_expand_positional (cols : list string) (info out : DataFrame)
    (col : string) :
  for_each expand_col cols info = Ok out →
  In col cols →
  List.NoDup (List.map basename cols) →
  List.Forall (λ c, Py.has_dot c = false ∧ Py.has_dot (basename c) = false) cols →
  ∃ cells vals n,
    assoc col (columns info) = Some cells ∧
    parse_vals col cells = Ok vals ∧
    py_max (List.map length vals) = Ok n ∧
    ∀ k, assoc (newcol col k) (columns out)
         = if Nat.ltb k n then Some (positional k vals)
           else assoc (newcol col k) (columns info).
Proof.
  revert info. induction cols as [|c cols IH]; intros info Hrun Hin Hnd Hall;
    [destruct Hin|].
  cbn [for_each] in Hrun.
  destruct (expand_col info c) as [info'|] eqn:E; cbn in Hrun; [|discriminate].
  inversion Hnd as [|? ? Hc Hnd']; subst.
  inversion Hall as [|? ? [Hdc Hdb] Hall']; subst.
  rewrite List.Forall_forall in Hall'.
  destruct (decide (col = c)) as [->|Hne].
  - destruct (expand_col_positional _ _ _ E Hdc) as (cells & vals & n & H1 & H2 & H3 & H4).
    exists cells, vals, n. repeat split; try assumption.
    intros k. rewrite <-H4. apply (for_each_expand_other _ _ _ _ Hrun).
    + intros Hk. apply Hall' in Hk as [Hk _]. rewrite newcol_has_dot in Hk. discriminate.
    + intros c' k' Hc'. destruct (Hall' _ Hc') as [_ Hb'].
      apply newcol_apart; try assumption.
      intros Heq. apply Hc. rewrite Heq. now apply in_map.
  - destruct Hin as [Hin|Hin]; [congruence|].
    destruct (Hall' _ Hin) as [Hdcol Hbcol].
    destruct (IH _ Hrun Hin Hnd') as (cells & vals & n & H1 & H2 & H3 & H4).
    { now apply List.Forall_forall. }
    exists cells, vals, n. repeat split; try assumption.
    + rewrite <-H1. symmetry. apply (expand_col_other _ _ _ _ E); [assumption|].
      intros k Heq. symmetry in Heq. now apply newcol_not_plain in Heq.
    + intros k. rewrite H4. destruct (Nat.ltb k n); [reflexivity|].
      apply (expand_col_other _ _ _ _ E).
      * now apply newcol_not_plain.
      * intros k'. apply newcol_apart; try assumption.
        intros Heq. apply Hc. rewrite <-Heq. now apply in_map.
Qed.

(** ** [edit_and_write_info] on one list field *)

Lemma assoc_rename (old new name : string) (cs : list (string * list cell)) :
  name ≠ old → name ≠ new →
  assoc name (List.map (λ kv, (if String.eqb kv.1 old then new else kv.1, kv.2)) cs)
  = assoc name cs.
Proof.
  intros Ho Hn. induction cs as [|[k v] cs IH]; simpl; [reflexivity|].
  destruct (String.eqb_spec k old) as [->|Hk].
  - destruct (String.eqb_spec new name); [congruence|].
    destruct (String.eqb_spec old name); [congruence|apply IH].
  - destruct (String.eqb_spec k name); [reflexivity|apply IH].
Qed.

Lemma set_index_other (feather info : DataFrame) (name : string) :
  Frame.set_index "MATCHID" (Frame.rename "ID" "MATCHID" feather) = Ok info →
  name ≠ "ID" → name ≠ "MATCHID" →
  assoc name (columns info) = assoc name (columns feather).
Proof.
  unfold Frame.set_index. destruct (assoc "MATCHID" _); [|discriminate].
  intros [= <-] Hid Hm. simpl. rewrite assoc_del_ne by assumption.
  now apply assoc_rename.
Qed.

Lemma list_cols_info_apart :
  List.NoDup (List.map basename list_cols_info) ∧
  List.Forall (λ c, Py.has_dot c = false ∧ Py.has_dot (basename c) = false)
    list_cols_info ∧
  List.Forall (λ c, c ≠ "ID" ∧ c ≠ "MATCHID") list_cols_info.
Proof.
  split; [|split].
  - repeat constructor; simpl; intuition discriminate.
  - repeat constructor.
  - repeat constructor; discriminate.
Qed.

(** The positional columns of a declared list field hold, position by
    position, the elements the code parsed out of the field's cells;
    there are as many as the longest parsed list has elements, a
    shorter row has [None] from its length on, and no column past that
    is made. *)
Lemma edit_and_write_info_positional (feather out : DataFrame) (col : string) :
  edit_and_write_info feather = Ok out →
  In col list_cols_info →
  ∃ cells vals n,
    assoc col (columns feather) = Some cells ∧
    parse_vals col cells = Ok vals ∧
    py_max (List.map length vals) = Ok n ∧
    ∀ k, assoc (newcol col k) (columns out)
         = if Nat.ltb k n then Some (positional k vals)
           else assoc (newcol col k) (columns feather).
Proof.
  unfold edit_and_write_info. intros Hrun Hin.
  destruct (Frame.set_index "MATCHID" (Frame.rename "ID" "MATCHID" feather))
    as [info|] eqn:Hset; [|discriminate].
  unfold mbind, result_bind in Hrun.
  destruct list_cols_info_apart as (Hnd & Hall & Hid).
  destruct (for_each_expand_positional _ _ _ _ Hrun Hin Hnd Hall)
    as (cells & vals & n & H1 & H2 & H3 & H4).
  rewrite List.Forall_forall in Hid. destruct (Hid _ Hin) as [Hi Hm].
  exists cells, vals, n. repeat split; try assumption.
  - rewrite <-H1. symmetry. now apply set_index_other.
  - intros k. rewrite H4. destruct (Nat.ltb k n); [reflexivity|].
    apply (set_index_other _ _ _ Hset); now apply newcol_not_plain.
Qed.

Lemma mapM_lookup {A B : Type} (f : A → result B) (l : list A) (l' : list B)
    (i : nat) (a : A) :
  mapM f l = Ok l' → l !! i = Some a → ∃ b, f a = Ok b ∧ l' !! i = Some b.
Proof.
  revert l' i. induction l as [|x l IH]; intros l' i; simpl; [discriminate 2|].
  destruct (f x) as [b|] eqn:Hb; simpl; [|discriminate].
  destruct (mapM f l) as [bs|]; simpl; [|discriminate].
  intros [= <-]. destruct i as [|i]; simpl.
  - intros [= <-]. eauto.
  - intros Ha. now apply (IH bs).
Qed.

Lemma mapM_length {A B : Type} (f : A → result B) (l : list A) (l' : list B) :
  mapM f l = Ok l' → length l' = length l.
Proof.
  revert l'. induction l as [|x l IH]; intros l'; simpl.
  - now intros [= <-].
  - destruct (f x); simpl; [|discriminate].
    destruct (mapM f l) as [bs|]; simpl; [|discriminate].
    intros [= <-]. simpl. f_equal. now apply IH.
Qed.

Lemma fold_max_le (l : list nat) (n x : nat) :
  (x ≤ n)%nat ∨ In x l → (x ≤ List.fold_left Nat.max l n)%nat.
Proof.
  revert n. induction l as [|y l IH]; intros n; simpl.
  - intros [H|[]]. exact H.
  - intros [H|[->|H]]; apply IH; [left|left|right]; try lia. exact H.
Qed.

Lemma py_max_ge (l : list nat) (n x : nat) : py_max l = Ok n → In x l → (x ≤ n)%nat.
Proof.
  destruct l as [|y l]; simpl; [discriminate|].
  intros [= <-] [->|H]; apply fold_max_le; [left; lia|now right].
Qed.

Lemma fold_max_In (l : list nat) (n : nat) :
  List.fold_left Nat.max l n = n ∨ In (List.fold_left Nat.max l n) l.
Proof.
  revert n. induction l as [|y l IH]; intros n; simpl; [now left|].
  destruct (IH (Nat.max n y)) as [H|H]; [|now right; right].
  rewrite H. destruct (Nat.max_spec n y) as [[_ ->]|[_ ->]]; [right|]; now left.
Qed.

(** [max] returns one of the lengths. *)
Lemma py_max_In (l : list nat) (n : nat) : py_max l = Ok n → In n l.
Proof.
  destruct l as [|y l]; simpl; [discriminate|].
  intros [= <-]. destruct (fold_max_In l y) as [->|H]; [now left|now right].
Qed.

(** ** The dtypes of the cached frame *)

Example round_to_float_ties :
  round_to_float (2 ^ 53 + 1) = (2 ^ 53)%Z ∧
  round_to_float (2 ^ 53 + 3) = (2 ^ 53 + 4)%Z ∧
  round_to_float (- (2 ^ 53 + 1)) = (- 2 ^ 53)%Z ∧
  round_to_float 12 = 12%Z.
Proof. repeat split. Qed.

Example numeric_columns :
  numeric_column [Some (PInt 1); Some (PInt 2)] = [CNum 1; CNum 2] ∧
  numeric_column [Some (PInt 1); None] = [CFloat 1; CNaN] ∧
  is_object [Some (PInt 1); Some (PInt (2 ^ 70))] = true ∧
  is_object [Some (PInt 1); None] = false.
Proof. repeat split. Qed.

Example nested_value_wins :
  json_normalize [(KStr "a.b", PInt 1); (KStr "a", PDict [(KStr "b", PInt 2)])]
  = [("a.b", PInt 2)].
Proof. reflexivity. Qed.

(** ** From a document to its row of the cached frame *)

Lemma pretty_N_char_digit (x : N) : Py.is_digit (pretty_N_char x) = true.
Proof.
  unfold pretty_N_char.
  destruct x as [|p]; [reflexivity|].
  do 4 (destruct p as [p|p|]; try reflexivity).
Qed.

Lemma pretty_N_go_head (x : N) (s : string) :
  (0 < x)%N →
  ∃ c rest, pretty_N_go x s = String c rest ∧ Py.is_digit c = true.
Proof.
  revert s. induction (N.lt_wf_0 x) as [x _ IH]; intros s Hx.
  rewrite pretty_N_go_step by assumption.
  destruct (N.eq_dec (x `div` 10)%N 0%N) as [->|Hq].
  - rewrite pretty_N_go_0. eauto using pretty_N_char_digit.
  - apply IH; [apply N.div_lt; lia|now apply N.neq_0_lt_0].
Qed.

(** A number prints with a digit or a minus sign in front. *)
Lemma pretty_Z_head (z : Z) :
  ∃ c rest, pretty z = String c rest ∧ (Py.is_digit c = true ∨ c = "-"%char).
Proof.
  destruct z as [|p|p]; cbn [pretty pretty_Z].
  - exists "0"%char, EmptyString. split; [reflexivity|now left].
  - unfold pretty, pretty_positive, pretty, pretty_N.
    destruct (decide (N.pos p = 0%N)) as [|_]; [discriminate|].
    destruct (pretty_N_go_head (N.pos p) EmptyString) as (c & rest & -> & Hc); [lia|].
    eauto.
  - exists "-"%char. eexists. split; [reflexivity|now right].
Qed.

(** Text that starts like a name is the [str] of the text key only. *)
Lemma str_key_text (k : key) (c : ascii) (rest : string) :
  Repr.str_key k = String c rest →
  Py.is_digit c = false → c ≠ "-"%char → c ≠ "("%char →
  k = KStr (String c rest).
Proof.
  destruct k as [s|z|ks]; simpl.
  - now intros ->.
  - destruct (pretty_Z_head z) as (c' & rest' & Hz & Hhead).
    intros Heq. rewrite Hz in Heq. injection Heq as <- <-.
    destruct Hhead; congruence.
  - unfold Repr.of_tuple. destruct (List.map Repr.of_key ks) as [|? [|? ?]];
      simpl; intros Heq; injection Heq as <- _; congruence.
Qed.

Lemma key_eqb_text (k : key) (s : string) : key_eqb k (KStr s) = true ↔ k = KStr s.
Proof.
  destruct k as [t|z|ks]; simpl; try (split; [discriminate|discriminate]).
  rewrite String.eqb_eq. split; [now intros ->|now intros [= ->]].
Qed.

Lemma assoc_app_l {B : Type} (k : string) (l l' : list (string * B)) (v : B) :
  assoc k l = Some v → assoc k (l ++ l') = Some v.
Proof.
  induction l as [|[k' v'] l IH]; simpl; [discriminate|].
  destruct (String.eqb k' k); [tauto|exact IH].
Qed.

(** The leaves of a dictionary below a dotted name have dotted names. *)
Lemma flatten_val_dotted (v : pyval) (name : string) :
  Py.has_dot name = true →
  List.Forall (λ e, Py.has_dot e.1 = true) (flatten_val name v).
Proof.
  revert v name. fix IH 1. intros v name Hn.
  destruct v as [| | | |l|kvs]; try (repeat constructor; exact Hn).
  cbn [flatten_val]. revert kvs. fix IHk 1. intros [|[k v'] kvs].
  - constructor.
  - apply List.Forall_app. split; [|apply IHk].
    apply IH. apply has_dot_app.
Qed.

Lemma flatten_dict_dotted (kvs : list (key * pyval)) (name : string) :
  List.Forall (λ e, Py.has_dot e.1 = true) (flatten_val name (PDict kvs)).
Proof.
  cbn [flatten_val]. induction kvs as [|[k v] kvs IH]; [constructor|].
  apply List.Forall_app. split; [|exact IH].
  apply flatten_val_dotted, has_dot_app.
Qed.

Lemma update_other (acc record : list (string * pyval)) (name : string) :
  List.Forall (λ e, e.1 ≠ name) record →
  assoc name (update acc record) = assoc name acc.
Proof.
  unfold update. revert acc. induction record as [|e record IH]; intros acc Hall;
    [reflexivity|].
  inversion Hall as [|? ? He Hrest]; subst. simpl.
  rewrite IH by assumption. apply assoc_set_ne. congruence.
Qed.

(** The dictionaries of a record leave its undotted names alone. *)
Lemma json_normalize_undotted (top acc : list (string * pyval)) (name : string) :
  Py.has_dot name = false →
  assoc name
    (List.fold_left
       (λ acc kv, if is_dict kv.2 then update acc (flatten_val kv.1 kv.2) else acc)
       top acc)
  = assoc name acc.
Proof.
  intros Hn. revert acc. induction top as [|[k v] top IH]; intros acc;
    [reflexivity|].
  cbn [List.fold_left]. rewrite IH. cbn [fst snd].
  destruct v as [| | | |l|kvs]; try reflexivity.
  apply update_other.
  apply List.Forall_impl with (2 := flatten_dict_dotted kvs k).
  intros e He Heq. simpl in He. rewrite Heq in He. congruence.
Qed.

(** A top-level field that is not a dictionary, under a name without a
    dot, is a field of the flattened record, under its own name. *)
Lemma json_normalize_field (d : list (key * pyval)) (c : ascii) (rest : string)
    (v : pyval) :
  lookup_key (KStr (String c rest)) d = Some v →
  is_dict v = false →
  Py.is_digit c = false → c ≠ "-"%char → c ≠ "("%char →
  Py.has_dot (String c rest) = false →
  assoc (String c rest) (json_normalize d) = Some v.
Proof.
  intros Hl Hv Hd Hm Hp Hdot. unfold json_normalize.
  rewrite json_normalize_undotted by assumption. clear Hdot.
  induction d as [|[k v'] d IH]; simpl in *; [discriminate|].
  destruct (key_eqb k (KStr (String c rest))) eqn:Hk.
  - apply key_eqb_text in Hk as ->. injection Hl as ->. rewrite Hv. simpl.
    now rewrite Ascii.eqb_refl, String.eqb_refl.
  - destruct (is_dict v'); simpl; [now apply IH|].
    destruct (String.eqb_spec (Repr.str_key k) (String c rest)) as [Heq|_];
      [|now apply IH].
    apply str_key_text in Heq; try assumption. subst k.
    rewrite (proj2 (key_eqb_text _ _) eq_refl) in Hk. discriminate.
Qed.

Lemma info_record_field (doc : document) (c : ascii) (rest : string) (v : pyval) :
  lookup_key (KStr (String c rest)) doc.2 = Some v →
  is_dict v = false →
  Py.is_digit c = false → c ≠ "-"%char → c ≠ "("%char →
  Py.has_dot (String c rest) = false →
  String c rest ≠ "ID" →
  assoc (String c rest) (info_record doc) = Some v.
Proof.
  intros Hl Hv Hd Hm Hp Hdot Hid. unfold info_record.
  rewrite assoc_set_ne by assumption. now apply json_normalize_field.
Qed.

Lemma lookup_map {A B : Type} (f : A → B) (l : list A) (i : nat) :
  List.map f l !! i = f <$> (l !! i).
Proof.
  revert i. induction l as [|a l IH]; intros [|i]; simpl; try reflexivity. apply IH.
Qed.

Lemma assoc_map_self {B : Type} (f : string → B) (l : list string) (n : string) (v : B) :
  assoc n (List.map (λ m, (m, f m)) l) = Some v → v = f n.
Proof.
  induction l as [|m l IH]; simpl; [discriminate|].
  destruct (String.eqb_spec m n) as [->|_]; [now intros [= <-]|exact IH].
Qed.

(** The cell of the cached frame for a field some document has as a
    list, a text, a date or [None]: the column is an object column, and
    the cell is the [str] of the value. *)
Lemma aggregate_cell (docs : list document) (feather : DataFrame) (name : string)
    (cells : list cell) (i : nat) (doc : document) (v : pyval) :
  aggregate_yaml_to_feather docs = Ok feather →
  assoc name (columns feather) = Some cells →
  docs !! i = Some doc →
  assoc name (info_record doc) = Some v →
  (∀ z, v ≠ PInt z) →
  cells !! i = Some (CStr (Repr.str v)).
Proof.
  intros Hagg Hcells Hi Hv Hnum.
  set (recs := List.map info_record docs).
  set (column := λ n : string,
         if is_object (concat_column n recs)
         then List.map astype_str (concat_column n recs)
         else numeric_column (concat_column n recs)).
  assert (Hcols : columns feather
                  = List.map (λ m, (m, column m)) (union_names recs)).
  { unfold aggregate_yaml_to_feather in Hagg.
    destruct docs; [discriminate|]. now injection Hagg as <-. }
  rewrite Hcols in Hcells. apply assoc_map_self in Hcells. subst cells.
  assert (Hrow : concat_column name recs !! i = Some (Some v)).
  { unfold concat_column, recs. rewrite !lookup_map, Hi. simpl. now rewrite Hv. }
  unfold column. replace (is_object (concat_column name recs)) with true.
  - rewrite lookup_map, Hrow. reflexivity.
  - symmetry. apply existsb_exists. exists (Some v). split.
    + apply list_elem_of_In. eapply list_elem_of_lookup_2. exact Hrow.
    + destruct v; try reflexivity. now destruct (Hnum z).
Qed.

(** ** Scenarios of the flattener *)

Example demo_docs_flatten : flatten_info demo_docs = Ok demo_info.
Proof. vm_compute. reflexivity. Qed.

(** C5: in any batch that can be flattened, the row of a document whose
    ['teams'] is [["India", "Australia"]] has [team.1 = "India"] and
    [team.2 = "Australia"], the elements as they are. *)
Theorem teams_elements_pass_through (docs : list document) (i : nat)
    (doc : document) (out : DataFrame) :
  docs !! i = Some doc →
  lookup_key (KStr "teams") doc.2 = Some (PList [PStr "India"; PStr "Australia"]) →
  flatten_info docs = Ok out →
  ∃ c1 c2,
    Frame.getitem "team.1" out = Ok c1 ∧ c1 !! i = Some (CStr "India") ∧
    Frame.getitem "team.2" out = Ok c2 ∧ c2 !! i = Some (CStr "Australia").
Proof.
  intros Hi Hteams Hflat. unfold flatten_info in Hflat.
  destruct (aggregate_yaml_to_feather docs) as [feather|] eqn:Hagg; [|discriminate].
  unfold mbind, result_bind in Hflat.
  destruct (edit_and_write_info_positional feather out "teams" Hflat)
    as (cells & vals & n & Hc & Hv & Hn & Hk); [simpl; tauto|].
  assert (Hcell : cells !! i = Some (CStr "['India', 'Australia']")).
  { apply (aggregate_cell docs feather "teams" cells i doc
             (PList [PStr "India"; PStr "Australia"])); try assumption.
    - apply info_record_field; try assumption; try reflexivity; discriminate.
    - discriminate. }
  change (parse_vals "teams" cells) with (mapM parse_plain cells) in Hv.
  destruct (mapM_lookup _ _ _ _ _ Hv Hcell) as (elems & Hp & Hrow).
  injection Hp as <-.
  assert (Hlen : (2 ≤ n)%nat).
  { apply (py_max_ge _ _ _ Hn). apply in_map_iff.
    exists ["India"; "Australia"]. split; [reflexivity|].
    apply list_elem_of_In. eapply list_elem_of_lookup_2. exact Hrow. }
  exists (positional 0 vals), (positional 1 vals). unfold Frame.getitem.
  change "team.1" with (newcol "teams" 0). change "team.2" with (newcol "teams" 1).
  rewrite !Hk.
  destruct (Nat.ltb_spec 0 n); [|lia]. destruct (Nat.ltb_spec 1 n); [|lia].
  unfold positional. rewrite !lookup_map, Hrow. repeat split.
Qed.

Lemma teams_elements_pass_through_witness :
  ∃ c1 c2,
    Frame.getitem "team.1" demo_info = Ok c1 ∧ c1 !! 0 = Some (CStr "India") ∧
    Frame.getitem "team.2" demo_info = Ok c2 ∧ c2 !! 0 = Some (CStr "Australia").
Proof.
  apply (teams_elements_pass_through demo_docs 0
           (info_doc "1001"
              [ ("city", PStr "Pune");
                ("dates", PList [PDate 2020 10 5]);
                ("outcome", PDict [(KStr "winner", PStr "India")]);
                ("player_of_match", PList [PStr "V Kohli"]);
                ("teams", PList [PStr "India"; PStr "Australia"]);
                ("umpires", PList [PStr "A"; PStr "B"]) ])).
  - reflexivity.
  - reflexivity.
  - vm_compute. reflexivity.
Defined.

(** C2, at a batch of two documents with ['teams'] of
    [["India", "Australia"]] and [[]], so that the longest list has two
    elements: the flattening goes through and has the columns [team.1]
    and [team.2], and the document with no team has the empty text in
    [team.1], not the null it has in [team.2]; the text of its list
    between the brackets is empty, and splitting the empty text gives
    one element. *)
Theorem empty_list_gets_empty_text :
  parse_plain (CStr "[]") = Ok [EmptyString] ∧
  ∃ out,
    flatten_info empty_teams_docs = Ok out ∧
    Frame.getitem "team.1" out = Ok [CStr "India"; CStr EmptyString] ∧
    Frame.getitem "team.2" out = Ok [CStr "Australia"; CNone] ∧
    Frame.getitem "team.3" out = Raise KeyError.
Proof.
  split; [reflexivity|]. eexists. split; [vm_compute; reflexivity|].
  repeat split.
Qed.

(** C4, at the batch of the claim (dates [[2020,1,5]],
    [[2020,3,15],[2020,3,16]] and [[]]), with the dates as calendar
    dates or as lists of three integers: the pattern that finds the
    dates wants a month of two digits, so it finds none in the text of
    these lists, every document has an empty list of
    dates, and the flattened table has neither [date.1] nor [date.2]
    although the other list fields are expanded. *)
Theorem single_digit_month_dates_lost :
  parse_dates (CStr "[datetime.date(2020, 1, 5)]") = Ok [] ∧
  parse_dates (CStr "[[2020, 3, 15], [2020, 3, 16]]") = Ok [] ∧
  (∃ out,
     flatten_info spring_docs = Ok out ∧
     Frame.getitem "date.1" out = Raise KeyError ∧
     Frame.getitem "date.2" out = Raise KeyError ∧
     Frame.getitem "team.1" out = Ok [CStr "India"; CStr "India"; CStr "India"]) ∧
  (∃ out,
     flatten_info spring_docs_ints = Ok out ∧
     Frame.getitem "date.1" out = Raise KeyError ∧
     Frame.getitem "date.2" out = Raise KeyError ∧
     Frame.getitem "team.1" out = Ok [CStr "India"; CStr "India"; CStr "India"]).
Proof.
  split; [reflexivity|]. split; [reflexivity|].
  split; (eexists; split; [vm_compute; reflexivity|]); repeat split.
Qed.

(** C6, at a batch of two documents of which the second has no
    ['umpires']: the flattening goes through, the field of the second
    document is the text ["nan"] in the aggregated table, and its row has
    [umpire.1 = "a"], the middle of that text, not null. *)
Theorem missing_field_gets_text_a :
  (∃ feather,
     aggregate_yaml_to_feather no_umpires_docs = Ok feather ∧
     Frame.getitem "umpires" feather = Ok [CStr "['A', 'B']"; CStr "nan"]) ∧
  ∃ out,
    flatten_info no_umpires_docs = Ok out ∧
    Frame.getitem "umpire.1" out = Ok [CStr "A"; CStr "a"] ∧
    Frame.getitem "umpire.2" out = Ok [CStr "B"; CNone].
Proof.
  split; (eexists; split; [vm_compute; reflexivity|]); repeat split.
Qed.

(** * Further properties *)

(** ** What [edit_and_write_info] makes of a frame *)

(** For each of the four list fields, the edited frame has one
    positional column per position below the length of the longest list
    parsed from the field's cells, which is the length of one of them;
    each such column has a cell for every row, holding the element of
    the row's list at that position, or [None] when the row's list is
    shorter.  A positional name from that length on is what it was in
    the cached frame. *)
Theorem list_field_expansion (feather out : DataFrame) (col : string) :
  edit_and_write_info feather = Ok out →
  In col list_cols_info →
  ∃ cells vals n,
    Frame.getitem col feather = Ok cells ∧
    parse_vals col cells = Ok vals ∧
    py_max (List.map length vals) = Ok n ∧
    In n (List.map length vals) ∧
    (∀ k, (k < n)%nat →
       ∃ column, Frame.getitem (newcol col k) out = Ok column ∧
         length column = length cells ∧
         ∀ i x, vals !! i = Some x → column !! i = Some (nth_cell k x)) ∧
    (∀ k, (n ≤ k)%nat →
       Frame.getitem (newcol col k) out = Frame.getitem (newcol col k) feather).
Proof.
  intros Hrun Hin.
  destruct (edit_and_write_info_positional _ _ _ Hrun Hin)
    as (cells & vals & n & Hc & Hv & Hn & Hk).
  exists cells, vals, n. unfold Frame.getitem. rewrite Hc.
  repeat split; try assumption.
  - now apply py_max_In.
  - intros k Hlt. exists (positional k vals). rewrite Hk.
    destruct (Nat.ltb_spec k n); [|lia]. repeat split.
    + unfold positional. rewrite length_map.
      unfold parse_vals in Hv. destruct (String.eqb col "dates");
        now apply mapM_length in Hv.
    + intros i x Hx. unfold positional. now rewrite lookup_map, Hx.
  - intros k Hle. rewrite Hk. destruct (Nat.ltb_spec k n); [lia|reflexivity].
Qed.

Lemma list_field_expansion_witness :
  ∃ cells vals n,
    Frame.getitem "dates" demo_feather = Ok cells ∧
    parse_vals "dates" cells = Ok vals ∧
    py_max (List.map length vals) = Ok n ∧
    In n (List.map length vals) ∧
    (∀ k, (k < n)%nat →
       ∃ column, Frame.getitem (newcol "dates" k) demo_info = Ok column ∧
         length column = length cells ∧
         ∀ i x, vals !! i = Some x → column !! i = Some (nth_cell k x)) ∧
    (∀ k, (n ≤ k)%nat →
       Frame.getitem (newcol "dates" k) demo_info
       = Frame.getitem (newcol "dates" k) demo_feather).
Proof.
  apply (list_field_expansion demo_feather demo_info "dates").
  - vm_compute. reflexivity.
  - simpl. tauto.
Defined.

Lemma for_each_expand_dropped (cols : list string) (info out : DataFrame)
    (col : string) :
  for_each expand_col cols info = Ok out →
  In col cols →
  List.Forall (λ c, Py.has_dot c = false) cols →
  assoc col (columns out) = None.
Proof.
  revert info. induction cols as [|c cols IH]; intros info Hrun Hin Hall;
    [destruct Hin|].
  cbn [for_each] in Hrun.
  destruct (expand_col info c) as [info'|] eqn:E; cbn in Hrun; [|discriminate].
  inversion Hall as [|? ? Hc Hall']; subst.
  destruct (in_dec string_dec col cols) as [Hlater|Hnot].
  - now apply (IH info').
  - destruct Hin as [->|Hin]; [|contradiction].
    rewrite (for_each_expand_other _ _ _ _ Hrun Hnot).
    + apply expand_col_inv in E as (? & ? & ? & _ & _ & _ & ->).
      apply assoc_del_eq.
    + intros c' k _ Heq. symmetry in Heq. now apply newcol_not_plain in Heq.
Qed.

(** The list fields themselves are gone from the edited frame: asking
    it for ['dates'], ['player_of_match'], ['teams'] or ['umpires'] is a
    [KeyError]. *)
Theorem list_field_dropped (feather out : DataFrame) (col : string) :
  edit_and_write_info feather = Ok out →
  In col list_cols_info →
  Frame.getitem col out = Raise KeyError.
Proof.
  unfold edit_and_write_info. intros Hrun Hin.
  destruct (Frame.set_index "MATCHID" (Frame.rename "ID" "MATCHID" feather))
    as [info|]; [|discriminate].
  unfold mbind, result_bind in Hrun. unfold Frame.getitem.
  rewrite (for_each_expand_dropped _ _ _ _ Hrun Hin); [reflexivity|].
  repeat constructor.
Qed.

Lemma list_field_dropped_witness :
  Frame.getitem "umpires" demo_info = Raise KeyError.
Proof.
  apply (list_field_dropped demo_feather demo_info "umpires").
  - vm_compute. reflexivity.
  - simpl. tauto.
Defined.

(** A column that is neither the identifier nor a list field, and whose
    name does not start like a positional column (with [date.],
    [player_of_matc.], [team.] or [umpire.]), is in the edited frame
    exactly as it is in the cached one. *)
Theorem other_columns_pass_through (feather out : DataFrame) (name : string) :
  edit_and_write_info feather = Ok out →
  existsb (String.eqb name) ("ID" :: "MATCHID" :: list_cols_info) = false →
  existsb (String.eqb (before_dot name)) (List.map basename list_cols_info) = false →
  Frame.getitem name out = Frame.getitem name feather.
Proof.
  unfold edit_and_write_info. intros Hrun Hname Hprefix.
  destruct (Frame.set_index "MATCHID" (Frame.rename "ID" "MATCHID" feather))
    as [info|] eqn:Hset; [|discriminate].
  unfold mbind, result_bind in Hrun. unfold Frame.getitem.
  assert (Hnot : ∀ x, In x ("ID" :: "MATCHID" :: list_cols_info) → name ≠ x).
  { intros x Hx ->. apply existsb_eqb_In in Hx. congruence. }
  rewrite (for_each_expand_other _ _ _ _ Hrun).
  - rewrite (set_index_other _ _ _ Hset); [reflexivity| |]; apply Hnot; simpl; tauto.
  - intros Hin. apply (Hnot name); [simpl; tauto|reflexivity].
  - intros c k Hc ->.
    destruct list_cols_info_apart as (_ & Hall & _).
    rewrite List.Forall_forall in Hall. destruct (Hall _ Hc) as [_ Hb].
    rewrite newcol_before_dot in Hprefix by assumption.
    assert (Ht : existsb (String.eqb (basename c)) (List.map basename list_cols_info) = true)
      by now apply existsb_eqb_In, in_map.
    congruence.
Qed.

Lemma other_columns_pass_through_witness :
  Frame.getitem "outcome.winner" demo_info = Frame.getitem "outcome.winner" demo_feather.
Proof.
  apply (other_columns_pass_through demo_feather demo_info "outcome.winner").
  - vm_compute. reflexivity.
  - reflexivity.
  - reflexivity.
Defined.

(** A cached frame without one of the four list fields cannot be
    edited: the call raises. *)
Theorem missing_list_column_raises (feather : DataFrame) (col : string) :
  In col list_cols_info →
  Frame.getitem col feather = Raise KeyError →
  ∃ e, edit_and_write_info feather = Raise e.
Proof.
  intros Hin Hmiss.
  destruct (edit_and_write_info feather) as [out|e] eqn:Hrun; [|eauto].
  destruct (edit_and_write_info_positional _ _ _ Hrun Hin) as (cells & _ & _ & Hc & _).
  unfold Frame.getitem in Hmiss. rewrite Hc in Hmiss. discriminate.
Qed.

Lemma missing_list_column_raises_witness :
  ∃ e, edit_and_write_info
         (mkDF None [CNum 0] [("dates", [CStr "[]"]); ("ID", [CStr "7"])])
       = Raise e.
Proof.
  apply (missing_list_column_raises
           (mkDF None [CNum 0] [("dates", [CStr "[]"]); ("ID", [CStr "7"])]) "teams").
  - simpl. tauto.
  - reflexivity.
Defined.

(** ** The cached frame *)

Lemma aggregate_columns (docs : list document) (feather : DataFrame) :
  aggregate_yaml_to_feather docs = Ok feather →
  let recs := List.map info_record docs in
  index_name feather = None ∧
  index feather = List.map (λ _, CNum 0) docs ∧
  columns feather
  = List.map (λ n, (n, if is_object (concat_column n recs)
                       then List.map astype_str (concat_column n recs)
                       else numeric_column (concat_column n recs)))
      (union_names recs).
Proof.
  unfold aggregate_yaml_to_feather. destruct docs; [discriminate|].
  intros [= <-]. repeat split.
Qed.





Lemma union_step_In (ns acc : list string) (n : string) :
  In n (List.fold_left
     (λ acc' m, if existsb (String.eqb m) acc' then acc' else acc' ++ [m]) ns acc)
  ↔ In n acc ∨ In n ns.
Proof.
  revert acc. induction ns as [|m ns IH]; intros acc; simpl; [tauto|].
  rewrite IH. destruct (existsb (String.eqb m) acc) eqn:E.
  - apply existsb_eqb_In in E. split; [tauto|]. intros [H|[<-|H]]; tauto.
  - rewrite in_app_iff. simpl. tauto.
Qed.

Lemma union_names_In (recs : list (list (string * pyval))) (n : string) :
  In n (union_names recs) ↔ ∃ rec, In rec recs ∧ In n (List.map fst rec).
Proof.
  unfold union_names.
  assert (Hgen : ∀ acc,
    In n (List.fold_left
      (λ acc rec, List.fold_left
         (λ acc' m, if existsb (String.eqb m) acc' then acc' else acc' ++ [m])
         (List.map fst rec) acc)
      recs acc)
    ↔ In n acc ∨ ∃ rec, In rec recs ∧ In n (List.map fst rec)).
  { induction recs as [|rec recs IH]; intros acc; simpl.
    - split; [tauto|]. intros [H|(rec & [] & _)]. exact H.
    - rewrite IH, union_step_In. split.
      + intros [[H|H]|(r & Hr & Hn)]; eauto 6.
      + intros [H|(r & [<-|Hr] & Hn)]; eauto 6. }
  rewrite Hgen. simpl. split; [intros [[]|H]; exact H|tauto].
Qed.

Lemma assoc_map_In {B : Type} (f : string → B) (l : list string) (n : string) :
  In n l → assoc n (List.map (λ m, (m, f m)) l) = Some (f n).
Proof.
  induction l as [|m l IH]; simpl; [tauto|].
  destruct (String.eqb_spec m n) as [->|Hne]; [reflexivity|].
  intros [H|H]; [contradiction|now apply IH].
Qed.

(** A column of the cached frame, from the records of the documents. *)
Lemma aggregate_getitem (docs : list document) (feather : DataFrame) (name : string)
    (cells : list cell) :
  aggregate_yaml_to_feather docs = Ok feather →
  assoc name (columns feather) = Some cells →
  let vs := concat_column name (List.map info_record docs) in
  (∃ doc, In doc docs ∧ In name (List.map fst (info_record doc))) ∧
  cells = if is_object vs then List.map astype_str vs else numeric_column vs.
Proof.
  intros Hagg Hcells. destruct (aggregate_columns _ _ Hagg) as (_ & _ & Hcols).
  cbv zeta in *. rewrite Hcols in Hcells. split.
  - apply assoc_names in Hcells. rewrite List.map_map, List.map_id in Hcells.
    apply union_names_In in Hcells as (rec & Hrec & Hn).
    apply in_map_iff in Hrec as (doc & <- & Hdoc). eauto.
  - now apply assoc_map_self in Hcells.
Qed.

Lemma aggregate_id_cells (docs : list document) (feather : DataFrame) :
  aggregate_yaml_to_feather docs = Ok feather →
  Frame.getitem "ID" feather = Ok (List.map (λ d, CStr d.1) docs).
Proof.
  intros Hagg. destruct (aggregate_columns _ _ Hagg) as (_ & _ & Hcols).
  cbv zeta in Hcols. unfold Frame.getitem. rewrite Hcols.
  assert (Hid : ∀ doc, assoc "ID" (info_record doc) = Some (PStr doc.1))
    by (intros doc; apply assoc_set_eq).
  rewrite assoc_map_In.
  - assert (Hcol : concat_column "ID" (List.map info_record docs)
                   = List.map (λ d, Some (PStr d.1)) docs).
    { unfold concat_column. rewrite List.map_map. apply List.map_ext, Hid. }
    rewrite Hcol. destruct docs as [|d docs]; [discriminate|].
    simpl. now rewrite List.map_map.
  - apply union_names_In. destruct docs as [|d docs]; [discriminate|].
    exists (info_record d). split; [now left|].
    eapply assoc_names, Hid.
Qed.

(** The identifier column of the cached frame is the list of the
    identifiers of the documents, in their order, whatever ['ID'] a
    document has of its own. *)
Theorem aggregate_id_column (docs : list document) (feather : DataFrame) :
  aggregate_yaml_to_feather docs = Ok feather →
  Frame.getitem "ID" feather = Ok (List.map (λ d, CStr d.1) docs).
Proof. apply aggregate_id_cells. Qed.

Lemma aggregate_id_column_witness :
  Frame.getitem "ID" (mkDF None [CNum 0] [("ID", [CStr "77"])])
  = Ok (List.map (λ d, CStr d.1) [("77", [(KStr "ID", PInt 5)])]).
Proof.
  apply (aggregate_id_column [("77", [(KStr "ID", PInt 5)])]).
  vm_compute. reflexivity.
Defined.

(** ** From documents to the edited frame *)

Lemma assoc_rename_new (old new : string) (cs : list (string * list cell)) :
  assoc new cs = None →
  assoc new (List.map (λ kv, (if String.eqb kv.1 old then new else kv.1, kv.2)) cs)
  = assoc old cs.
Proof.
  induction cs as [|[k v] cs IH]; simpl; [reflexivity|].
  destruct (String.eqb_spec k new) as [->|Hk]; [discriminate|].
  destruct (String.eqb_spec k old) as [->|Ho]; simpl.
  - now rewrite String.eqb_refl.
  - destruct (String.eqb_spec k new); [contradiction|exact IH].
Qed.

(** When no document has a field that flattens to ['MATCHID'], the
    index of the edited frame is named ['MATCHID'] and lists the
    identifiers of the documents in their order. *)
Theorem flattened_index_is_identifiers (docs : list document) (out : DataFrame) :
  (∀ doc, In doc docs → assoc "MATCHID" (info_record doc) = None) →
  flatten_info docs = Ok out →
  index_name out = Some "MATCHID" ∧ index out = List.map (λ d, CStr d.1) docs.
Proof.
  intros Hno Hflat. unfold flatten_info in Hflat.
  destruct (aggregate_yaml_to_feather docs) as [feather|] eqn:Hagg; [|discriminate].
  unfold mbind, result_bind in Hflat.
  destruct (edit_and_write_info_index _ _ Hflat) as [Hname Hidx].
  split; [assumption|].
  assert (Hm : assoc "MATCHID" (columns feather) = None).
  { destruct (assoc "MATCHID" (columns feather)) as [cells|] eqn:E; [|reflexivity].
    destruct (aggregate_getitem _ _ _ _ Hagg E) as [(doc & Hdoc & Hin) _].
    apply assoc_is_Some in Hin as (v & Hv). rewrite (Hno _ Hdoc) in Hv. discriminate. }
  pose proof (aggregate_id_cells _ _ Hagg) as Hid.
  unfold Frame.getitem, Frame.rename in Hidx, Hid. simpl in Hidx.
  rewrite (assoc_rename_new _ _ _ Hm) in Hidx.
  destruct (assoc "ID" (columns feather)); congruence.
Qed.

Lemma flattened_index_is_identifiers_witness :
  index_name demo_info = Some "MATCHID" ∧
  index demo_info = List.map (λ d, CStr d.1) demo_docs.
Proof.
  apply (flattened_index_is_identifiers demo_docs demo_info).
  - intros doc [<-|[<-|[]]]; reflexivity.
  - vm_compute. reflexivity.
Defined.

(** The three list fields that are not dates. *)
Lemma plain_list_field (col : string) :
  In col ["player_of_match"; "teams"; "umpires"] →
  In col list_cols_info ∧ parse_vals col = mapM parse_plain ∧
  ∃ c rest, col = String c rest ∧ Py.is_digit c = false ∧ c ≠ "-"%char ∧
            c ≠ "("%char ∧ Py.has_dot col = false ∧ col ≠ "ID".
Proof.
  intros [<-|[<-|[<-|[]]]]; (split; [simpl; tauto|]); (split; [reflexivity|]);
    eexists _, _; (split; [reflexivity|]); repeat split; discriminate.
Qed.

(** The first positional column of a list field that is not the dates,
    at a row whose cell parses to a list with a first element. *)
Lemma first_position (feather out : DataFrame) (col : string) (cells : list cell)
    (i : nat) (s x : string) (xs : list string) :
  edit_and_write_info feather = Ok out →
  In col ["player_of_match"; "teams"; "umpires"] →
  assoc col (columns feather) = Some cells →
  cells !! i = Some (CStr s) →
  parse_plain (CStr s) = Ok (x :: xs) →
  ∃ column, Frame.getitem (newcol col 0) out = Ok column ∧
            column !! i = Some (CStr x).
Proof.
  intros Hrun Hcol Hcells Hi Hparse.
  destruct (plain_list_field _ Hcol) as (Hin & Hplain & _).
  destruct (edit_and_write_info_positional _ _ _ Hrun Hin)
    as (cells' & vals & n & Hc & Hv & Hn & Hk).
  rewrite Hcells in Hc. injection Hc as <-. rewrite Hplain in Hv.
  destruct (mapM_lookup _ _ _ _ _ Hv Hi) as (elems & Hp & Hrow).
  rewrite Hparse in Hp. injection Hp as <-.
  assert (Hlen : (length (x :: xs) ≤ n)%nat).
  { apply (py_max_ge _ _ _ Hn). apply in_map_iff. exists (x :: xs).
    split; [reflexivity|]. apply list_elem_of_In.
    eapply list_elem_of_lookup_2. exact Hrow. }
  simpl in Hlen.
  exists (positional 0 vals). unfold Frame.getitem. rewrite Hk.
  destruct (Nat.ltb_spec 0 n); [|lia].
  unfold positional. now rewrite lookup_map, Hrow.
Qed.

(** A document without one of the list fields ['player_of_match'],
    ['teams'], ['umpires'], in a batch that flattens: its row has the
    text ["a"] in the first positional column of the field.  The
    missing value is the text ["nan"] in the cached frame, and the code
    takes the characters between the first and the last as a list of
    one element. *)
Theorem missing_list_field_reads_a (docs : list document) (i : nat) (doc : document)
    (out : DataFrame) (col : string) :
  flatten_info docs = Ok out →
  docs !! i = Some doc →
  In col ["player_of_match"; "teams"; "umpires"] →
  assoc col (info_record doc) = None →
  ∃ column, Frame.getitem (newcol col 0) out = Ok column ∧
            column !! i = Some (CStr "a").
Proof.
  intros Hflat Hi Hcol Hmiss. unfold flatten_info in Hflat.
  destruct (aggregate_yaml_to_feather docs) as [feather|] eqn:Hagg; [|discriminate].
  unfold mbind, result_bind in Hflat.
  destruct (plain_list_field _ Hcol) as (Hin & Hplain & _).
  destruct (edit_and_write_info_positional _ _ _ Hflat Hin)
    as (cells & vals & n & Hc & Hv & _ & _).
  assert (Hcell : cells !! i = Some (CStr "nan")).
  { destruct (aggregate_getitem _ _ _ _ Hagg Hc) as [_ Hcells]. cbv zeta in Hcells.
    assert (Hrow : concat_column col (List.map info_record docs) !! i = Some None).
    { unfold concat_column. rewrite !lookup_map, Hi. simpl. now rewrite Hmiss. }
    destruct (is_object _); subst cells.
    - now rewrite lookup_map, Hrow.
    - assert (Hnan : numeric_column (concat_column col (List.map info_record docs))
                     !! i = Some CNaN)
        by (unfold numeric_column; now rewrite lookup_map, Hrow).
      rewrite Hplain in Hv.
      destruct (mapM_lookup _ _ _ _ _ Hv Hnan) as (? & Hp & _). discriminate. }
  now apply (first_position feather out col cells i "nan" "a" []).
Qed.

Lemma missing_list_field_reads_a_witness :
  ∃ column, Frame.getitem (newcol "umpires" 0)
              (mkDF (Some "MATCHID") [CStr "1"; CStr "2"]
                 [ ("date.1", [CStr "2020-10-05"; CStr "2020-10-06"]);
                   ("player_of_matc.1", [CStr "V Kohli"; CStr "V Kohli"]);
                   ("team.1", [CStr "India"; CStr "India"]);
                   ("team.2", [CStr "Australia"; CStr "Australia"]);
                   ("umpire.1", [CStr "A"; CStr "a"]);
                   ("umpire.2", [CStr "B"; CNone]) ]) = Ok column ∧
            column !! 1 = Some (CStr "a").
Proof.
  apply (missing_list_field_reads_a no_umpires_docs 1
           (info_doc "2" [ ("dates", PList [PDate 2020 10 6]);
                           ("player_of_match", PList [PStr "V Kohli"]);
                           ("teams", PList [PStr "India"; PStr "Australia"]) ])).
  - vm_compute. reflexivity.
  - reflexivity.
  - simpl. tauto.
  - reflexivity.
Defined.

(** A document whose ['player_of_match'], ['teams'] or ['umpires'] is
    the empty list, in a batch that flattens: its row has the empty
    text in the first positional column of the field, so the field has
    at least one positional column however short the lists of the batch
    are. *)
Theorem empty_list_field_reads_empty_text (docs : list document) (i : nat)
    (doc : document) (out : DataFrame) (col : string) :
  flatten_info docs = Ok out →
  docs !! i = Some doc →
  In col ["player_of_match"; "teams"; "umpires"] →
  lookup_key (KStr col) doc.2 = Some (PList []) →
  ∃ column, Frame.getitem (newcol col 0) out = Ok column ∧
            column !! i = Some (CStr EmptyString).
Proof.
  intros Hflat Hi Hcol Hempty. unfold flatten_info in Hflat.
  destruct (aggregate_yaml_to_feather docs) as [feather|] eqn:Hagg; [|discriminate].
  unfold mbind, result_bind in Hflat.
  destruct (plain_list_field _ Hcol)
    as (Hin & _ & c & rest & -> & Hd & Hm & Hp & Hdot & Hid).
  destruct (edit_and_write_info_positional _ _ _ Hflat Hin)
    as (cells & _ & _ & Hc & _).
  apply (first_position feather out (String c rest) cells i "[]" EmptyString []);
    try assumption; [|reflexivity].
  apply (aggregate_cell docs feather (String c rest) cells i doc (PList []));
    try assumption.
  - now apply info_record_field.
  - discriminate.
Qed.

Lemma empty_list_field_reads_empty_text_witness :
  ∃ column, Frame.getitem (newcol "teams" 0)
              (mkDF (Some "MATCHID") [CStr "1"; CStr "2"]
                 [ ("date.1", [CStr "2020-10-05"; CStr "2020-10-06"]);
                   ("player_of_matc.1", [CStr "V Kohli"; CStr "V Kohli"]);
                   ("team.1", [CStr "India"; CStr EmptyString]);
                   ("team.2", [CStr "Australia"; CNone]);
                   ("umpire.1", [CStr "A"; CStr "A"]);
                   ("umpire.2", [CStr "B"; CStr "B"]) ]) = Ok column ∧
            column !! 1 = Some (CStr EmptyString).
Proof.
  apply (empty_list_field_reads_empty_text empty_teams_docs 1
           (info_doc "2" (list_fields (PList [PDate 2020 10 6]) (PList [])))).
  - vm_compute. reflexivity.
  - reflexivity.
  - simpl. tauto.
  - reflexivity.
Defined.

(** ** What the persist step leaves in the 'matchinfo' file *)

(** One round of the loop over the frames as an explicit list of
    writes: the primary relation, then one relation per entry of
    [col_to_table], in its order. *)
Lemma persist_writes (df : DataFrame) (dbname conn : string) :
  get_sql_db_fname (Some dbname) = Fname conn →
  ∃ (primary : DataFrame) (sats : list (string * relation)),
    Frame.drop_labels (names (Frame.filter_dot df)) df = Ok primary ∧
    List.Forall2 (λ e w, w.1 = e.1 ∧
       ∃ tmp, Frame.select e.2 (Frame.filter_dot df) = Ok tmp ∧ w.2 = as_relation tmp)
      (grouped (names (Frame.filter_dot df)) []) sats ∧
    ∀ st : store,
      persist (Some df) dbname st
      = (<[conn := apply_writes ((dbname, as_relation primary) :: sats)
                     (default ∅ (st !! conn))]> st, Ok ()).
Proof.
  intros Hconn.
  destruct (satellites_written (Frame.filter_dot df) conn
              (grouped (names (Frame.filter_dot df)) [])) as (ws & Hws & Hrun).
  { apply List.Forall_impl with (2 := groups_selectable df).
    intros e (sel & H & _). eauto. }
  set (primary := with_columns df
         (List.filter (λ kv, negb (Py.has_dot kv.1)) (columns df))).
  exists primary, ws. split; [apply drop_labels_dotted|]. split; [exact Hws|].
  intros st. unfold persist, col_to_table. cbv zeta.
  rewrite drop_labels_dotted, Hconn.
  rewrite col_to_table_grouped.
  2:{ apply List.Forall_forall. intros c Hc. rewrite names_filter_dot in Hc.
      now apply filter_In in Hc. }
  unfold mbind at 1, M_bind. unfold lift at 1.
  unfold mbind at 1, M_bind. unfold connect, mret, M_ret.
  unfold mbind at 1, M_bind. unfold to_sql at 1.
  unfold mbind at 1, M_bind. unfold lift at 1.
  specialize (Hrun [(dbname, as_relation primary)] (default ∅ (st !! conn)) st).
  simpl in Hrun. exact Hrun.
Qed.

Section LastWrite.
Context {E : Type} (name : E → string) (Q : E → relation → Prop).
Implicit Types (es : list E) (ws : list (string * relation)).

Lemma last_write_absent es ws (t : string) :
  List.Forall2 (λ e w, w.1 = name e ∧ Q e w.2) es ws →
  ¬ In t (List.map name es) → last_write t ws = None.
Proof.
  induction 1 as [|e w es ws [Hn _] _ IH]; intros Hnot; simpl; [reflexivity|].
  rewrite IH by (intros H; apply Hnot; now right).
  destruct (String.eqb_spec w.1 t) as [Heq|]; [|reflexivity].
  exfalso. apply Hnot. left. congruence.
Qed.

Lemma last_write_present es ws (t : string) (e : E) :
  List.Forall2 (λ e w, w.1 = name e ∧ Q e w.2) es ws →
  List.NoDup (List.map name es) →
  In e es → name e = t →
  ∃ r, last_write t ws = Some r ∧ Q e r.
Proof.
  induction 1 as [|e' w es ws [Hn Hq] Hrest IH]; intros Hnd Hin Ht; [destruct Hin|].
  simpl in Hnd. inversion Hnd as [|? ? Hfresh Hnd']; subst. simpl.
  destruct Hin as [->|Hin].
  - rewrite (last_write_absent es ws (name e) Hrest Hfresh).
    rewrite Hn, String.eqb_refl. eauto.
  - destruct (IH Hnd' Hin eq_refl) as (r & -> & Hr). eauto.
Qed.

End LastWrite.

Lemma select_cols_assoc (labels : list string) (cs sel : list (string * list cell))
    (l : string) :
  Frame.select_cols labels cs = Ok sel → In l labels → assoc l sel = assoc l cs.
Proof.
  revert sel. induction labels as [|l0 labels IH]; intros sel; simpl; [tauto|].
  destruct (assoc l0 cs) as [vs|] eqn:E0; [|discriminate].
  destruct (Frame.select_cols labels cs) as [rest|]; simpl; [|discriminate].
  intros [= <-] Hin. simpl.
  destruct (String.eqb_spec l0 l) as [->|Hne]; [now rewrite E0|].
  destruct Hin as [?|Hin]; [contradiction|now apply IH].
Qed.

Lemma assoc_filter_name {B : Type} (f : string → bool) (l : list (string * B))
    (k : string) :
  f k = true → assoc k (List.filter (λ kv, f kv.1) l) = assoc k l.
Proof.
  intros Hk. induction l as [|[k' v] l IH]; simpl; [reflexivity|].
  destruct (String.eqb_spec k' k) as [->|Hne].
  - rewrite Hk. simpl. now rewrite String.eqb_refl.
  - destruct (f k'); simpl; [|exact IH].
    destruct (String.eqb_spec k' k); [contradiction|exact IH].
Qed.

Lemma assoc_In_pair {B : Type} (l : list (string * B)) (k : string) (v : B) :
  List.NoDup (List.map fst l) → In (k, v) l → assoc k l = Some v.
Proof.
  induction l as [|[k' v'] l IH]; simpl; [tauto|].
  intros Hnd. inversion Hnd as [|? ? Hfresh Hnd']; subst.
  destruct (String.eqb_spec k' k) as [->|Hne].
  - intros [[= ->]|Hin]; [reflexivity|].
    exfalso. apply Hfresh. now apply (in_map fst) in Hin.
  - intros [[= ? ?]|Hin]; [contradiction|now apply IH].
Qed.

(** The run on a cached frame that can be edited, as writes to the one
    file. *)
Lemma run_writes (feather info : DataFrame) :
  edit_and_write_info feather = Ok info →
  ∃ (primary : DataFrame) (sats : list (string * relation)),
    Frame.drop_labels (names (Frame.filter_dot info)) info = Ok primary ∧
    List.Forall2 (λ e w, w.1 = e.1 ∧
       ∃ tmp, Frame.select e.2 (Frame.filter_dot info) = Ok tmp ∧ w.2 = as_relation tmp)
      (grouped (names (Frame.filter_dot info)) []) sats ∧
    ∀ st : store,
      edit_feather_to_sql feather st
      = (<[info_sqlite := apply_writes (("matchinfo", as_relation primary) :: sats)
                            (default ∅ (st !! info_sqlite))]> st,
         Raise AttributeError).
Proof.
  intros Hinfo.
  destruct (persist_writes info "matchinfo" info_sqlite eq_refl)
    as (primary & sats & Hp & Hs & Hrun).
  exists primary, sats. split; [exact Hp|]. split; [exact Hs|].
  intros st. unfold edit_feather_to_sql.
  unfold mbind at 1, M_bind. unfold lift at 1. rewrite Hinfo.
  cbn [for_eachM fst snd]. unfold mbind at 1, M_bind. rewrite Hrun.
  unfold mbind at 1, M_bind. now rewrite persist_none.
Qed.

(** Every dotted column of the edited frame can be read back after the
    run: the 'matchinfo' file has a relation named by the text before
    the column's first dot, and that relation holds the column with its
    cells, next to the identifiers under ['MATCHID']. *)
Theorem dotted_column_stored (feather info : DataFrame) (st : store)
    (col : string) (cells : list cell) :
  edit_and_write_info feather = Ok info →
  Py.has_dot col = true →
  Frame.getitem col info = Ok cells →
  ∃ db rel,
    (edit_feather_to_sql feather st).1 !! info_sqlite = Some db ∧
    db !! before_dot col = Some rel ∧
    assoc "MATCHID" rel = Some (index info) ∧
    assoc col rel = Some cells.
Proof.
  intros Hinfo Hdot Hget.
  destruct (run_writes _ _ Hinfo) as (primary & sats & _ & Hsats & Hrun).
  rewrite Hrun. simpl. rewrite lookup_insert_eq.
  unfold Frame.getitem in Hget.
  destruct (assoc col (columns info)) as [cells'|] eqn:Hcol; [|discriminate].
  injection Hget as ->.
  assert (Hin : In col (names (Frame.filter_dot info))).
  { rewrite names_filter_dot. apply filter_In. split; [|assumption].
    now apply assoc_names in Hcol. }
  destruct (grouped_has _ [] _ Hin) as (cs & Hcs & Hmem).
  destruct (last_write_present fst
              (λ e r, ∃ tmp, Frame.select e.2 (Frame.filter_dot info) = Ok tmp
                             ∧ r = as_relation tmp)
              _ _ (before_dot col) (before_dot col, cs) Hsats)
    as (r & Hlast & tmp & Htmp & ->).
  { apply grouped_NoDup. constructor. }
  { now apply assoc_In. }
  { reflexivity. }
  eexists _, (as_relation tmp). split; [reflexivity|].
  rewrite lookup_apply_writes. cbn [last_write]. rewrite Hlast. split; [reflexivity|].
  simpl in Htmp. unfold Frame.select in Htmp.
  destruct (Frame.select_cols cs (columns (Frame.filter_dot info))) as [sel|] eqn:Hsel;
    [|discriminate].
  injection Htmp as <-.
  destruct (edit_and_write_info_index _ _ Hinfo) as [Hname _].
  unfold as_relation, index_label, Frame.filter_dot, with_columns.
  cbn [index_name index columns]. rewrite Hname. cbn [default assoc]. unfold id.
  split; [now rewrite String.eqb_refl|].
  destruct (String.eqb_spec "MATCHID" col) as [<-|_]; [discriminate|].
  rewrite (select_cols_assoc _ _ _ _ Hsel Hmem).
  unfold Frame.filter_dot, with_columns. cbn [columns].
  now rewrite (assoc_filter_name Py.has_dot).
Qed.

Lemma dotted_column_stored_witness :
  ∃ db rel,
    (edit_feather_to_sql demo_feather ∅).1 !! info_sqlite = Some db ∧
    db !! before_dot "team.2" = Some rel ∧
    assoc "MATCHID" rel = Some (index demo_info) ∧
    assoc "team.2" rel = Some [CStr "Australia"; CStr "Australia"].
Proof.
  apply (dotted_column_stored demo_feather demo_info ∅ "team.2").
  - vm_compute. reflexivity.
  - reflexivity.
  - reflexivity.
Defined.

Lemma grouped_names (cols : list string) (acc : list (string * list string))
    (t : string) :
  In t (List.map fst (grouped cols acc)) →
  In t (List.map fst acc) ∨ In t (List.map before_dot cols).
Proof.
  revert acc. induction cols as [|c cols IH]; intros acc; simpl; [tauto|].
  intros H. apply IH in H as [H|H]; [|tauto].
  rewrite names_append_to in H.
  destruct (existsb _ _); [tauto|].
  apply in_app_or in H as [H|[<-|[]]]; tauto.
Qed.

Lemma edit_and_write_info_no_matchid (feather info : DataFrame) :
  edit_and_write_info feather = Ok info → assoc "MATCHID" (columns info) = None.
Proof.
  unfold edit_and_write_info, Frame.set_index.
  destruct (assoc "MATCHID" _) as [ids|]; [|discriminate].
  unfold mbind, result_bind. intros Hrun.
  rewrite (for_each_expand_other _ _ _ _ Hrun).
  - apply assoc_del_eq.
  - simpl. intuition discriminate.
  - intros c k _ Heq. symmetry in Heq. now apply newcol_not_plain in Heq.
Qed.

(** Every column of the edited frame without a dot can be read back
    from the relation ['matchinfo'] of the 'matchinfo' file after the
    run, next to the identifiers, unless some dotted column has
    ['matchinfo'] before its first dot: the satellite of that name is
    written later under the same name. *)
Theorem plain_column_stored (feather info : DataFrame) (st : store)
    (col : string) (cells : list cell) :
  edit_and_write_info feather = Ok info →
  Py.has_dot col = false →
  Frame.getitem col info = Ok cells →
  existsb (String.eqb "matchinfo")
    (List.map before_dot (names (Frame.filter_dot info))) = false →
  ∃ db rel,
    (edit_feather_to_sql feather st).1 !! info_sqlite = Some db ∧
    db !! "matchinfo" = Some rel ∧
    assoc "MATCHID" rel = Some (index info) ∧
    assoc col rel = Some cells.
Proof.
  intros Hinfo Hdot Hget Hfree.
  destruct (run_writes _ _ Hinfo) as (primary & sats & Hp & Hsats & Hrun).
  rewrite Hrun. simpl. rewrite lookup_insert_eq.
  eexists _, (as_relation primary). split; [reflexivity|].
  rewrite lookup_apply_writes. cbn [last_write].
  rewrite (last_write_absent fst
             (λ e r, ∃ tmp, Frame.select e.2 (Frame.filter_dot info) = Ok tmp
                            ∧ r = as_relation tmp) _ _ "matchinfo" Hsats).
  2:{ intros Hin. apply grouped_names in Hin as [[]|Hin].
      apply existsb_eqb_In in Hin. congruence. }
  rewrite lookup_insert_eq. split; [reflexivity|].
  rewrite drop_labels_dotted in Hp. injection Hp as <-.
  destruct (edit_and_write_info_index _ _ Hinfo) as [Hname _].
  unfold Frame.getitem in Hget.
  destruct (assoc col (columns info)) as [cells'|] eqn:Hcol; [|discriminate].
  injection Hget as ->.
  unfold as_relation, index_label, with_columns.
  cbn [index_name index columns]. rewrite Hname. cbn [default assoc]. unfold id.
  split; [now rewrite String.eqb_refl|].
  destruct (String.eqb_spec "MATCHID" col) as [<-|_].
  - rewrite (edit_and_write_info_no_matchid _ _ Hinfo) in Hcol. discriminate.
  - rewrite (assoc_filter_name (λ n, negb (Py.has_dot n))); [assumption|].
    now rewrite Hdot.
Qed.

Lemma plain_column_stored_witness :
  ∃ db rel,
    (edit_feather_to_sql demo_feather ∅).1 !! info_sqlite = Some db ∧
    db !! "matchinfo" = Some rel ∧
    assoc "MATCHID" rel = Some (index demo_info) ∧
    assoc "city" rel = Some [CStr "Pune"; CStr "nan"].
Proof.
  apply (plain_column_stored demo_feather demo_info ∅ "city").
  - vm_compute. reflexivity.
  - reflexivity.
  - reflexivity.
  - reflexivity.
Defined.

(** No run of [edit_feather_to_sql] returns.  When the cached frame
    cannot be edited the files are left as they were and the exception
    is that of the edit; otherwise the run ends in the
    [AttributeError] of the innings frame, and no file but the
    'matchinfo' one has changed. *)
Theorem run_never_returns (feather : DataFrame) (st : store) :
  (∃ e, edit_and_write_info feather = Raise e ∧
        edit_feather_to_sql feather st = (st, Raise e)) ∨
  (∃ info, edit_and_write_info feather = Ok info ∧
           (edit_feather_to_sql feather st).2 = Raise AttributeError ∧
           ∀ conn, conn ≠ info_sqlite →
                   (edit_feather_to_sql feather st).1 !! conn = st !! conn).
Proof.
  destruct (edit_and_write_info feather) as [info|e] eqn:Hinfo.
  - right. exists info. split; [reflexivity|].
    now apply (run_stops_at_innings feather info).
  - left. exists e. split; [reflexivity|]. now apply edit_feather_to_sql_raise.
Qed.

(** ** [access_dict] on documents *)

Lemma lookup_key_In (k : key) (kvs : list (key * pyval)) (v : pyval) :
  lookup_key k kvs = Some v → ∃ k', In (k', v) kvs.
Proof.
  induction kvs as [|[k' v'] kvs IH]; simpl; [discriminate|].
  destruct (key_eqb k' k).
  - intros [= ->]. eauto.
  - intros H. destruct (IH H) as (k0 & Hin). eauto.
Qed.

Lemma lookup_key_tuple (ks : list key) (kvs : list (key * pyval)) :
  plain_keys (PDict kvs) = true → lookup_key (KTuple ks) kvs = None.
Proof.
  simpl. induction kvs as [|[k v] kvs IH]; simpl; [reflexivity|].
  intros H. apply andb_prop in H as [Hk H].
  destruct k; simpl; try now apply IH. discriminate.
Qed.

Lemma py_index_In {A : Type} (l : list A) (i : Z) (a : A) :
  py_index l i = Ok a → In a l.
Proof.
  unfold py_index. cbv zeta.
  set (j := if (i <? 0)%Z then (Z.of_nat (length l) + i)%Z else i).
  destruct (j <? 0)%Z; [discriminate|].
  destruct (l !! Z.to_nat j) eqn:E; [|discriminate]. intros [= <-].
  apply list_elem_of_In. eapply list_elem_of_lookup_2. exact E.
Qed.

(** A value reached by one subscript has plain keys when the value
    subscripted has. *)
Lemma subscript_plain_keys (dct v : pyval) (k : key) :
  plain_keys dct = true → subscript dct k = Ok v → plain_keys v = true.
Proof.
  destruct dct as [| | | |l|kvs]; simpl; try discriminate.
  - intros _. destruct k; try discriminate.
    destruct (py_index _ _); simpl; [|discriminate]. now intros [= <-].
  - intros Hl. destruct k; try discriminate. intros Hi.
    apply py_index_In in Hi. rewrite forallb_forall in Hl. now apply Hl.
  - intros Hd. destruct (lookup_key k kvs) as [x|] eqn:E; [|discriminate].
    intros [= ->]. apply lookup_key_In in E as (k' & Hin).
    rewrite forallb_forall in Hd. specialize (Hd _ Hin). simpl in Hd.
    now destruct k'.
Qed.

(** On a value none of whose dictionaries has a tuple for a key, a call
    with at least one key is settled by the first key alone and never
    hands back what the keys lead to: a failed first lookup and a
    dictionary under the first key give [None], any other value under
    the first key a [TypeError]; two nested calls are all it takes. *)
Theorem access_dict_first_key_settles (fuel : nat) (dct : pyval) (k : key)
    (rest : list key) :
  plain_keys dct = true →
  access_dict (S (S fuel)) dct (k :: rest)
  = Some (match subscript dct k with
          | Ok (PDict _) => Ok PNone
          | Ok _ => Raise TypeError
          | Raise e => if caught e then Ok PNone else Raise e
          end).
Proof.
  intros Hplain. cbn [access_dict].
  destruct (subscript dct k) as [v|e] eqn:Hs; [|reflexivity].
  pose proof (subscript_plain_keys _ _ _ Hplain Hs) as Hv.
  destruct v as [| | | |l|kvs]; try reflexivity.
  cbn [subscript]. now rewrite (lookup_key_tuple rest kvs Hv).
Qed.

Lemma access_dict_first_key_settles_witness :
  access_dict 2
    (PDict [(KStr "outcome", PDict [(KStr "winner", PStr "India")])])
    [KStr "outcome"; KStr "winner"]
  = Some (match subscript
                  (PDict [(KStr "outcome", PDict [(KStr "winner", PStr "India")])])
                  (KStr "outcome") with
          | Ok (PDict _) => Ok PNone
          | Ok _ => Raise TypeError
          | Raise e => if caught e then Ok PNone else Raise e
          end).
Proof.
  apply (access_dict_first_key_settles 0
           (PDict [(KStr "outcome", PDict [(KStr "winner", PStr "India")])])
           (KStr "outcome") [KStr "winner"]).
  reflexivity.
Defined.

(** ** The names of the databases and their tables *)

(** The three tables of names agree: [get_sql_db_fname] has a file, in
    the sqlite directory, exactly for the names of [gt_sql_db_names],
    and exactly for those [get_sql_db_table_names] has a list of
    tables. *)
Theorem db_names_agree (dbname : string) :
  (dbname ∈ gt_sql_db_names ↔
     ∃ p, get_sql_db_fname (Some dbname) = Fname p ∧
          String.prefix (get_data_sql_dir +:+ "/") p = true) ∧
  (dbname ∈ gt_sql_db_names ↔ ∃ tbls, get_sql_db_table_names dbname = Ok tbls).
Proof.
  assert (Hmem : dbname ∈ gt_sql_db_names
                 ↔ dbname = "matchinfo" ∨ dbname = "delivery").
  { unfold gt_sql_db_names. now rewrite elem_of_union, !elem_of_singleton. }
  rewrite Hmem. unfold get_sql_db_fname, get_sql_db_table_names. cbn [assoc].
  destruct (String.eqb_spec "matchinfo" dbname) as [<-|Hm].
  - split; (split; [intros _; eexists; repeat split|now left]).
  - destruct (String.eqb_spec "delivery" dbname) as [<-|Hd].
    + split; (split; [intros _; eexists; repeat split|now right]).
    + split; (split; [intros [->| ->]; contradiction|]).
      * intros (p & Hp & _). discriminate.
      * intros (tbls & Ht). discriminate.
Qed.

(** Every table listed for a database has its creation code, and the
    code creates a table of that name; asking for the code of any other
    pair of names is a [KeyError]. *)
Theorem listed_tables_have_code (dbname tblname : string) :
  get_sql_db_table_code dbname tblname
  = match get_sql_db_table_names dbname with
    | Ok tbls =>
        if existsb (String.eqb tblname) tbls
        then Ok ("CREATE TABLE " +:+ tblname
                 +:+ " (ID TEXT PRIMARY KEY, winner TEXT, bytype TEXT, byamt INTEGER)")
        else Raise KeyError
    | Raise e => Raise KeyError
    end.
Proof.
  unfold get_sql_db_table_code, get_sql_db_table_names. cbn [assoc].
  destruct (String.eqb_spec "matchinfo" dbname) as [<-|Hm].
  - cbn [assoc existsb]. rewrite (String.eqb_sym tblname).
    destruct (String.eqb_spec "outcome" tblname) as [<-|Ho]; reflexivity.
  - destruct (String.eqb_spec "delivery" dbname); reflexivity.
Qed.

(** ** [add_to_outcomes] *)

Lemma zip4_length (a b c d : list pyval) :
  (length (zip4 a b c d) ≤ length a)%nat ∧ (length (zip4 a b c d) ≤ length b)%nat ∧
  (length (zip4 a b c d) ≤ length c)%nat ∧ (length (zip4 a b c d) ≤ length d)%nat.
Proof.
  revert b c d. induction a as [|x a IH]; intros [|y b] [|z c] [|w d]; simpl;
    try lia.
  specialize (IH b c d). lia.
Qed.

Lemma statements_length (rows : list (pyval * pyval * pyval * pyval)) :
  (length (statements rows).1 ≤ length rows)%nat.
Proof.
  induction rows as [|row rows IH]; simpl; [lia|].
  destruct (outcome_statement row); simpl; [|lia].
  destruct (statements rows) as [ss r]. simpl in *. lia.
Qed.

(** The loop hands the database no more statements than the shortest
    of its four arguments has elements, an argument that is not a list
    counting as one element. *)
Theorem add_to_outcomes_stops_with_shortest (ids winners bytypes byamts : pyval) :
  let sent := length (add_to_outcomes ids winners bytypes byamts).1 in
  (sent ≤ length (as_list ids))%nat ∧ (sent ≤ length (as_list winners))%nat ∧
  (sent ≤ length (as_list bytypes))%nat ∧ (sent ≤ length (as_list byamts))%nat.
Proof.
  cbv zeta. unfold add_to_outcomes.
  pose proof (statements_length
    (zip4 (as_list ids) (as_list winners) (as_list bytypes) (as_list byamts))).
  pose proof (zip4_length (as_list ids) (as_list winners) (as_list bytypes)
                (as_list byamts)).
  lia.
Qed.

(** Called with identifiers alone, the other arguments left at their
    default [None], the loop has one round whatever the number of
    identifiers: only the first one is inserted, and when it is not
    text the call ends in the exception of the format. *)
Theorem add_to_outcomes_ids_alone (ids : pyval) :
  add_to_outcomes ids PNone PNone PNone
  = match as_list ids with
    | [] => ([], Ok ())
    | id :: _ =>
        match format_s id with
        | Ok i => (["INSERT OR IGNORE INTO outcome (ID) VALUES (" +:+ i +:+ ")"], Ok ())
        | Raise e => ([], Raise e)
        end
    end.
Proof.
  unfold add_to_outcomes. destruct (as_list ids) as [|id more]; [reflexivity|].
  cbn [as_list zip4 statements outcome_statement].
  destruct (format_s id) as [i|e]; [|reflexivity].
  destruct more; reflexivity.
Qed.

(** ** The identifier and the date in a path *)

Lemma match_cls_digit_first (p : list cls) (c : ascii) (s : string) :
  Py.is_digit c = false → match_cls (Digit :: p) (String c s) = None.
Proof. intros H. simpl. now rewrite H. Qed.

Lemma match_cls_app (p q : list cls) (s : string) :
  match_cls (p ++ q) s = match match_cls p s with
                         | Some rest => match_cls q rest
                         | None => None
                         end.
Proof.
  revert s. induction p as [|cl p IH]; intros s; simpl; [reflexivity|].
  destruct s as [|c s]; [reflexivity|]. destruct (accepts cl c); [apply IH|reflexivity].
Qed.

(** What a match of classes leaves is a tail of the text. *)
Lemma match_cls_contains (p : list cls) (s rest : string) (c : ascii) :
  match_cls p s = Some rest → Repr.contains c rest = true → Repr.contains c s = true.
Proof.
  revert s. induction p as [|cl p IH]; intros s; simpl.
  - now intros [= ->].
  - destruct s as [|c' s]; [discriminate|].
    destruct (accepts cl c'); [|discriminate].
    intros H Hc. simpl. rewrite (IH _ H Hc). apply orb_true_r.
Qed.

Lemma match_id_backslash (s : string) (ds : string) :
  match_id s = Some ds → Repr.contains "\" s = true.
Proof.
  unfold match_id. rewrite match_cls_app.
  destruct (match_cls iso_date s) as [rest|] eqn:E; [|discriminate].
  intros H. apply (match_cls_contains _ _ _ _ E).
  destruct rest as [|c rest]; [discriminate|].
  cbn [match_cls accepts] in H. cbn [Repr.contains]. revert H.
  destruct (Ascii.eqb_spec "\" c) as [<-|_]; [reflexivity|discriminate].
Qed.

Lemma search_id_none (file : string) :
  Repr.contains "\" file = false → search_id file = None.
Proof.
  intros H. induction file as [|c file IH]; [reflexivity|].
  cbn [search_id]. destruct (match_id (String c file)) as [ds|] eqn:E.
  - apply match_id_backslash in E. congruence.
  - apply IH. simpl in H. now apply orb_false_elim in H as [_ H].
Qed.

(** A path without a backslash has no identifier: [re.search] finds
    nothing and the code asks [None] for its [group]. *)
Theorem matchid_needs_backslash (file : string) :
  Repr.contains "\" file = false → matchid file = Raise AttributeError.
Proof. intros H. unfold matchid. now rewrite (search_id_none _ H). Qed.

Lemma matchid_needs_backslash_witness :
  matchid "../data/interim/2020-01-05/1234.yaml" = Raise AttributeError.
Proof.
  apply (matchid_needs_backslash "../data/interim/2020-01-05/1234.yaml").
  reflexivity.
Defined.

Lemma contains_app (c : ascii) (a b : string) :
  Repr.contains c (a +:+ b) = Repr.contains c a || Repr.contains c b.
Proof.
  induction a as [|x a IH]; simpl; [reflexivity|]. now rewrite IH, orb_assoc.
Qed.

Lemma join2_contains (c : ascii) (path b : string) :
  c ≠ "/"%char → Repr.contains c path = false → Repr.contains c b = false →
  Repr.contains c (join2 path b) = false.
Proof.
  intros Hc Hp Hb. unfold join2. destruct (String.prefix "/" b); [assumption|].
  destruct (_ || _); rewrite !contains_app, ?Hp, ?Hb; [reflexivity|].
  cbn [Repr.contains orb]. destruct (Ascii.eqb_spec "/" c); [congruence|reflexivity].
Qed.

(** On a host that joins paths with [/], no file of a batch has an
    identifier, whatever the date of the batch and the name of the file,
    as long as neither has a backslash of its own. *)
Theorem matchid_fails_on_posix_paths (date name : string) :
  Repr.contains "\" date = false → Repr.contains "\" name = false →
  matchid (os_path_join (get_data_interim_dir (Some date)) [name])
  = Raise AttributeError.
Proof.
  intros Hd Hn. unfold matchid. rewrite search_id_none; [reflexivity|].
  unfold get_data_interim_dir, os_path_join. cbn [List.fold_left].
  repeat apply join2_contains; try assumption; try reflexivity; discriminate.
Qed.

Lemma matchid_fails_on_posix_paths_witness :
  matchid (os_path_join (get_data_interim_dir (Some "2020-01-05")) ["1234.yaml"])
  = Raise AttributeError.
Proof.
  apply (matchid_fails_on_posix_paths "2020-01-05" "1234.yaml"); reflexivity.
Defined.

Lemma match_cls_exact (p : list cls) (d t : string) :
  match_cls p d = Some EmptyString → match_cls p (d +:+ t) = Some t.
Proof.
  revert d. induction p as [|cl p IH]; intros d; simpl.
  - now intros [= ->].
  - destruct d as [|c d]; [discriminate|]. simpl.
    destruct (accepts cl c); [apply IH|discriminate].
Qed.

Lemma match_cls_length (p : list cls) (d : string) :
  match_cls p d = Some EmptyString → String.length d = length p.
Proof.
  revert d. induction p as [|cl p IH]; intros d; simpl.
  - now intros [= ->].
  - destruct d as [|c d]; [discriminate|]. simpl.
    destruct (accepts cl c); [|discriminate]. intros H. f_equal. now apply IH.
Qed.

Lemma substring_app_l (d t : string) : substring 0 (String.length d) (d +:+ t) = d.
Proof. induction d as [|c d IH]; simpl; [now destruct t|now rewrite IH]. Qed.

Lemma take_digits_app (ds rest : string) :
  forallb Py.is_digit (list_ascii_of_string ds) = true →
  take_digits rest = EmptyString →
  take_digits (ds +:+ rest) = ds.
Proof.
  intros Hds Hrest. induction ds as [|c ds IH]; simpl in *; [assumption|].
  apply andb_prop in Hds as [-> Hds]. now rewrite IH.
Qed.

Lemma search_id_found (s ds : string) : match_id s = Some ds → search_id s = Some ds.
Proof. intros H. destruct s; cbn [search_id]; now rewrite H. Qed.

Lemma search_id_skip (pre s : string) :
  forallb (λ c, negb (Py.is_digit c)) (list_ascii_of_string pre) = true →
  search_id (pre +:+ s) = search_id s.
Proof.
  induction pre as [|c pre IH]; simpl; [reflexivity|].
  intros H. apply andb_prop in H as [Hc H]. apply negb_true_iff in Hc.
  unfold match_id. cbn [iso_date app match_cls accepts]. rewrite Hc. now apply IH.
Qed.

(** Where the directory of the batch is followed by a backslash, as on
    a host that joins paths with it, the identifier is the run of digits
    after the date: for a path made of a prefix without digits, a date,
    a backslash, digits and a rest that does not go on with a digit. *)
Theorem matchid_reads_digits_after_date (pre d ds rest : string) :
  forallb (λ c, negb (Py.is_digit c)) (list_ascii_of_string pre) = true →
  match_cls iso_date d = Some EmptyString →
  ds ≠ EmptyString →
  forallb Py.is_digit (list_ascii_of_string ds) = true →
  take_digits rest = EmptyString →
  matchid (pre +:+ d +:+ "\" +:+ ds +:+ rest) = Ok ds.
Proof.
  intros Hpre Hd Hne Hds Hrest. unfold matchid.
  rewrite (search_id_skip _ _ Hpre).
  rewrite (search_id_found _ ds); [reflexivity|].
  unfold match_id. rewrite match_cls_app, (match_cls_exact _ _ _ Hd).
  change ("\" +:+ ds +:+ rest) with (String "\" (ds +:+ rest)).
  cbn [match_cls accepts]. rewrite Ascii.eqb_refl.
  rewrite (take_digits_app _ _ Hds Hrest). now destruct ds.
Qed.

Lemma matchid_reads_digits_after_date_witness :
  matchid ("..\data\interim\" +:+ "2020-01-05" +:+ "\" +:+ "1234" +:+ ".yaml")
  = Ok "1234".
Proof.
  apply (matchid_reads_digits_after_date "..\data\interim\" "2020-01-05" "1234" ".yaml").
  - reflexivity.
  - reflexivity.
  - discriminate.
  - reflexivity.
  - reflexivity.
Defined.

(** ** The newest file of a directory *)

Lemma string_leb_trans (a b c : string) :
  String.leb a b = true → String.leb b c = true → String.leb a c = true.
Proof.
  unfold String.leb. revert b c.
  induction a as [|x a IH]; intros [|y b] [|z c]; simpl; try easy.
  unfold Ascii.compare.
  destruct (N.compare_spec (N_of_ascii x) (N_of_ascii y)) as [Hxy|Hxy|Hxy];
    destruct (N.compare_spec (N_of_ascii y) (N_of_ascii z)) as [Hyz|Hyz|Hyz];
    destruct (N.compare_spec (N_of_ascii x) (N_of_ascii z)) as [Hxz|Hxz|Hxz];
    try easy; try lia.
  apply IH.
Qed.

Lemma string_leb_refl (a : string) : String.leb a a = true.
Proof. destruct (String.leb_total a a); assumption. Qed.

Lemma insert_sorted_In (x : string) (l : list string) (y : string) :
  In y (insert_sorted x l) ↔ y = x ∨ In y l.
Proof.
  induction l as [|z l IH]; simpl; [intuition|].
  destruct (String.leb x z); simpl; [intuition|]. rewrite IH. intuition.
Qed.

Lemma sorted_In (l : list string) (y : string) : In y (sorted l) ↔ In y l.
Proof.
  induction l as [|x l IH]; simpl; [tauto|].
  rewrite insert_sorted_In, IH. intuition.
Qed.

Lemma insert_sorted_last (x : string) (l : list string) :
  (∀ m, last l = Some m → ∀ y, In y l → String.leb y m = true) →
  ∀ m, last (insert_sorted x l) = Some m →
       ∀ y, In y (insert_sorted x l) → String.leb y m = true.
Proof.
  induction l as [|z l IH]; intros Hl m; simpl.
  - intros [= <-] y [<-|[]]. apply string_leb_refl.
  - destruct (String.leb x z) eqn:Hxz.
    + rewrite last_cons_cons. intros Hm y [<-|Hy].
      * apply (string_leb_trans _ z); [assumption|]. apply (Hl m Hm). now left.
      * now apply (Hl m Hm).
    + assert (Hzx : String.leb z x = true)
        by (destruct (String.leb_total x z); congruence).
      destruct l as [|w l].
      * simpl. intros [= <-] y [<-|[<-|[]]]; [assumption|].
        apply string_leb_refl.
      * assert (Hl' : ∀ m, last (w :: l) = Some m →
                           ∀ y, In y (w :: l) → String.leb y m = true).
        { intros m' Hm' y Hy. apply (Hl m'); [now rewrite last_cons_cons|now right]. }
        specialize (IH Hl').
        destruct (insert_sorted x (w :: l)) as [|v l'] eqn:E.
        { exfalso. assert (H : In x []) by (rewrite <-E; apply insert_sorted_In; now left).
          destruct H. }
        rewrite last_cons_cons. intros Hm y [<-|Hy]; [|now apply IH].
        destruct (last (w :: l)) as [m'|] eqn:Hlast;
          [|apply last_None in Hlast; discriminate].
        apply (string_leb_trans _ m').
        -- apply (Hl m'); [now rewrite last_cons_cons|now left].
        -- apply (IH m Hm). rewrite <-E. apply insert_sorted_In. right.
           apply list_elem_of_In. eapply list_elem_of_lookup_2.
           rewrite last_lookup in Hlast. exact Hlast.
Qed.

Lemma sorted_last (l : list string) (m : string) :
  last (sorted l) = Some m → ∀ y, In y l → String.leb y m = true.
Proof.
  intros Hm y Hy. apply sorted_In in Hy. revert m Hm y Hy.
  induction l as [|x l IH]; simpl; [discriminate|].
  apply insert_sorted_last. exact IH.
Qed.

Lemma py_index_minus_one {A : Type} (l : list A) :
  py_index l (-1) = match last l with
                    | Some a => Ok a
                    | None => Raise IndexError
                    end.
Proof.
  unfold py_index. cbv zeta. change (-1 <? 0)%Z with true. cbv iota.
  destruct l as [|a l _] using rev_ind; [reflexivity|].
  rewrite last_snoc, length_app. cbn [length].
  destruct (Z.ltb_spec (Z.of_nat (length l + 1) + -1) 0); [lia|].
  replace (Z.to_nat (Z.of_nat (length l + 1) + -1)) with (length l) by lia.
  now rewrite list_lookup_middle.
Qed.

(** [most_recent_file] on an empty directory is an [IndexError]; on any
    other it is the directory joined with one of its names, one that no
    name of the directory comes after in the order of the code
    points. *)
Theorem most_recent_file_is_greatest (directory : string) (listing : list string) :
  (listing = [] ∧ most_recent_file directory listing = Raise IndexError) ∨
  (∃ f, most_recent_file directory listing = Ok (os_path_join directory [f]) ∧
        In f listing ∧ ∀ g, In g listing → String.leb g f = true).
Proof.
  unfold most_recent_file. rewrite py_index_minus_one.
  destruct (last (sorted listing)) as [f|] eqn:Hlast.
  - right. exists f. split; [reflexivity|]. split.
    + apply sorted_In. apply list_elem_of_In. eapply list_elem_of_lookup_2.
      rewrite last_lookup in Hlast. exact Hlast.
    + now apply sorted_last.
  - left. split; [|reflexivity]. apply last_None in Hlast.
    destruct listing as [|x l]; [reflexivity|].
    exfalso. assert (H : In x (sorted (x :: l))) by (apply sorted_In; now left).
    rewrite Hlast in H. destruct H.
Qed.

Lemma search_date_found (s : string) (rest : string) :
  match_cls iso_date s = Some rest → search_date s = Some (substring 0 10 s).
Proof. intros H. destruct s; cbn [search_date]; now rewrite H. Qed.

Lemma search_date_skip (pre s : string) :
  forallb (λ c, negb (Py.is_digit c)) (list_ascii_of_string pre) = true →
  search_date (pre +:+ s) = search_date s.
Proof.
  induction pre as [|c pre IH]; simpl; [reflexivity|].
  intros H. apply andb_prop in H as [Hc H]. apply negb_true_iff in Hc.
  rewrite Hc. now apply IH.
Qed.

Lemma raw_filename_text (c : ascii) (d : string) :
  Py.is_digit c = true →
  get_data_raw_filename (String c d) = "../data/raw/" +:+ String c d +:+ ".zip".
Proof.
  intros Hc. unfold get_data_raw_filename, get_data_raw_dir, os_path_join.
  cbn [List.fold_left]. change (join2 (join2 ".." "data") "raw") with "../data/raw".
  unfold join2. change (String c d +:+ ".zip") with (String c (d +:+ ".zip")).
  cbn [String.prefix]. destruct (ascii_dec "/" c) as [<-|_]; [discriminate|].
  reflexivity.
Qed.

(** When the newest file of the raw directory is the zip file
    [get_data_raw_filename] names for a date, [most_recent_date] gives
    that date back. *)
Theorem most_recent_date_of_raw_zip (listing : list string) (d : string) :
  match_cls iso_date d = Some EmptyString →
  most_recent_file get_data_raw_dir listing = Ok (get_data_raw_filename d) →
  most_recent_date get_data_raw_dir listing = Ok d.
Proof.
  intros Hd Hfile. unfold most_recent_date. rewrite Hfile.
  unfold mbind, result_bind.
  replace (search_date (get_data_raw_filename d)) with (Some d); [reflexivity|].
  symmetry. pose proof (match_cls_length _ _ Hd) as Hlen.
  destruct d as [|c d]; [discriminate|].
  assert (Hc : Py.is_digit c = true).
  { simpl in Hd. destruct (Py.is_digit c); [reflexivity|discriminate]. }
  rewrite (raw_filename_text _ _ Hc).
  rewrite (search_date_skip "../data/raw/") by reflexivity.
  rewrite (search_date_found _ ".zip").
  - change 10%nat with (length iso_date). rewrite <-Hlen.
    now rewrite substring_app_l.
  - now apply (match_cls_exact iso_date (String c d) ".zip").
Qed.

Lemma most_recent_date_of_raw_zip_witness :
  most_recent_date get_data_raw_dir ["2020-01-05.zip"; "2019-12-31.zip"]
  = Ok "2020-01-05".
Proof.
  apply (most_recent_date_of_raw_zip ["2020-01-05.zip"; "2019-12-31.zip"] "2020-01-05").
  - reflexivity.
  - reflexivity.
Defined.

(** ** A database name the module does not know *)

(** For a name outside [gt_sql_db_names], such as ['innings'],
    [get_sql_db_fname] hands the whole dictionary to [sqlite3.connect]:
    the round ends in a [TypeError] before anything is written,
    whatever the frame. *)
Theorem persist_unknown_db_raises (df : DataFrame) (dbname : string) (st : store) :
  dbname ∉ gt_sql_db_names →
  persist (Some df) dbname st = (st, Raise TypeError).
Proof.
  intros Hnot. unfold persist. cbv zeta. rewrite drop_labels_dotted.
  assert (Hd : ∃ lst, get_sql_db_fname (Some dbname) = Dict lst).
  { unfold get_sql_db_fname. cbn [assoc].
    destruct (String.eqb_spec "matchinfo" dbname) as [<-|_].
    - exfalso. apply Hnot. unfold gt_sql_db_names.
      apply elem_of_union. left. now apply elem_of_singleton.
    - destruct (String.eqb_spec "delivery" dbname) as [<-|_]; [|eauto].
      exfalso. apply Hnot. unfold gt_sql_db_names.
      apply elem_of_union. right. now apply elem_of_singleton. }
  destruct Hd as (lst & ->). reflexivity.
Qed.

Lemma persist_unknown_db_raises_witness :
  persist (Some demo_info) "innings" ∅ = (∅, Raise TypeError).
Proof.
  apply (persist_unknown_db_raises demo_info "innings" ∅).
  vm_compute. intros H. discriminate H.
Defined.

(** ** When the flattening goes through *)

Lemma mapM_total {A B : Type} (f : A → result B) (l : list A) :
  (∀ a, In a l → ∃ b, f a = Ok b) → ∃ bs, mapM f l = Ok bs.
Proof.
  induction l as [|a l IH]; intros Hall; simpl; [eauto|].
  destruct (Hall a) as (b & ->); [now left|].
  destruct IH as (bs & ->); [intros; apply Hall; now right|].
  simpl. eauto.
Qed.

Lemma mapM_Ok_each {A B : Type} (f : A → result B) (l : list A) (bs : list B) :
  mapM f l = Ok bs → ∀ a, In a l → ∃ b, f a = Ok b.
Proof.
  revert bs. induction l as [|x l IH]; intros bs; simpl; [tauto|].
  destruct (f x) as [b|] eqn:Hb; simpl; [|discriminate].
  destruct (mapM f l) as [bs'|]; simpl; [|discriminate].
  intros _ a [<-|Ha]; [eauto|]. now apply (IH bs').
Qed.

(** The cells the parsing of line 317 or 322 accepts are the texts. *)
Lemma parse_vals_text (col : string) (cells : list cell) :
  (∃ vals, parse_vals col cells = Ok vals) ↔ ∀ x, In x cells → ∃ s, x = CStr s.
Proof.
  unfold parse_vals. split.
  - intros (vals & Hv) x Hx.
    destruct (String.eqb col "dates");
      destruct (mapM_Ok_each _ _ _ Hv x Hx) as (b & Hb);
      destruct x; try discriminate; eauto.
  - intros Hall. destruct (String.eqb col "dates"); apply mapM_total;
      intros x Hx; destruct (Hall x Hx) as (s & ->); simpl; eauto.
Qed.

Lemma for_each_expand_succeeds (cols : list string) (info : DataFrame) :
  List.NoDup cols →
  List.Forall (λ c, Py.has_dot c = false) cols →
  (∀ c, In c cols → ∃ cells, assoc c (columns info) = Some cells ∧ cells ≠ [] ∧
                             ∀ x, In x cells → ∃ s, x = CStr s) →
  ∃ out, for_each expand_col cols info = Ok out.
Proof.
  revert info. induction cols as [|c cols IH]; intros info Hnd Hdot Hall;
    cbn [for_each]; [eauto|].
  inversion Hnd as [|? ? Hfresh Hnd']; subst.
  inversion Hdot as [|? ? Hc Hdot']; subst.
  destruct (Hall c) as (cells & Hcells & Hne & Htext); [now left|].
  assert (Hstep : ∃ info', expand_col info c = Ok info').
  { unfold expand_col, Frame.getitem. rewrite Hcells. cbn.
    destruct (proj2 (parse_vals_text c cells) Htext) as (vals & Hv).
    rewrite Hv. cbn.
    assert (Hlen : length vals = length cells).
    { unfold parse_vals in Hv. destruct (String.eqb c "dates");
        now apply mapM_length in Hv. }
    destruct vals as [|v vals]; [destruct cells; [congruence|discriminate]|].
    cbn [List.map py_max]. cbn. unfold Frame.drop.
    rewrite add_positional_other, Hcells; [eauto|].
    intros k _ Heq. symmetry in Heq. now apply newcol_not_plain in Heq. }
  destruct Hstep as (info' & Hstep). rewrite Hstep. cbn.
  apply IH; try assumption.
  intros c' Hc'. destruct (Hall c') as (cells' & H1 & H2 & H3); [now right|].
  exists cells'. repeat split; try assumption.
  rewrite <-H1. apply (expand_col_other _ _ _ _ Hstep).
  - intros ->. contradiction.
  - intros k Heq. symmetry in Heq. apply newcol_not_plain in Heq; [assumption|].
    rewrite List.Forall_forall in Hdot'. now apply Hdot'.
Qed.

Lemma assoc_rename_old (old new : string) (cs : list (string * list cell)) :
  In old (List.map fst cs) →
  ∃ vs, assoc new (List.map (λ kv, (if String.eqb kv.1 old then new else kv.1, kv.2)) cs)
        = Some vs.
Proof.
  intros Hin. apply assoc_is_Some. rewrite List.map_map. simpl.
  apply in_map_iff in Hin as ([k v] & Hk & Hin). simpl in Hk. subst k.
  apply in_map_iff. exists (old, v). split; [|assumption].
  simpl. now rewrite String.eqb_refl.
Qed.

(** A cached frame with the identifier column is edited without an
    exception exactly when each of the four list columns is there with
    text in every cell, and the frame has a row. *)
Lemma edit_succeeds_iff (feather : DataFrame) :
  In "ID" (names feather) →
  (∃ out, edit_and_write_info feather = Ok out) ↔
  ∀ c, In c list_cols_info →
       ∃ cells, assoc c (columns feather) = Some cells ∧ cells ≠ [] ∧
                ∀ x, In x cells → ∃ s, x = CStr s.
Proof.
  intros Hid. split.
  - intros (out & Hrun) c Hc.
    destruct (edit_and_write_info_positional _ _ _ Hrun Hc)
      as (cells & vals & n & Hcells & Hv & Hn & _).
    exists cells. split; [assumption|]. split.
    + intros ->. unfold parse_vals in Hv.
      destruct (String.eqb c "dates"); simpl in Hv; injection Hv as <-;
        discriminate Hn.
    + apply (proj1 (parse_vals_text c cells)). eauto.
  - intros Hall. unfold edit_and_write_info, Frame.set_index.
    destruct (assoc_rename_old "ID" "MATCHID" (columns feather) Hid) as (ids & Hids).
    change (columns (Frame.rename "ID" "MATCHID" feather))
      with (List.map (λ kv : string * list cell,
                        (if String.eqb kv.1 "ID" then "MATCHID" else kv.1, kv.2))
              (columns feather)).
    rewrite Hids. unfold mbind, result_bind.
    destruct list_cols_info_apart as (_ & Hdots & Hnames).
    apply for_each_expand_succeeds.
    + repeat constructor; simpl; intuition discriminate.
    + apply List.Forall_impl with (2 := Hdots). tauto.
    + intros c Hc. destruct (Hall c Hc) as (cells & H1 & H2 & H3).
      exists cells. repeat split; try assumption.
      rewrite List.Forall_forall in Hnames. destruct (Hnames c Hc) as [Hn1 Hn2].
      cbn [columns]. rewrite assoc_del_ne by assumption.
      rewrite <-H1. now apply assoc_rename.
Qed.

Lemma is_object_value (vs : list (option pyval)) (v : pyval) :
  In (Some v) vs → (∀ z, v ≠ PInt z) → is_object vs = true.
Proof.
  intros Hin Hv. unfold is_object. apply existsb_exists.
  exists (Some v). split; [assumption|].
  destruct v; try reflexivity. now destruct (Hv z).
Qed.

(** A batch is flattened without an exception whenever each of the
    four list fields has, in some document of the batch, a value that
    is not an integer: then the column of the field is there and holds
    text in every row, which is all the editing asks for. *)
Theorem flatten_succeeds_when_fields_hold_values (docs : list document) :
  (∀ c, In c list_cols_info →
        ∃ doc v, In doc docs ∧ assoc c (info_record doc) = Some v ∧ ∀ z, v ≠ PInt z) →
  ∃ out, flatten_info docs = Ok out.
Proof.
  unfold flatten_info. intros Hall.
  destruct (Hall "dates") as (doc0 & _ & Hdoc0 & _); [simpl; tauto|].
  destruct (aggregate_yaml_to_feather docs) as [feather|e] eqn:Hagg.
  2:{ destruct docs; [destruct Hdoc0|discriminate]. }
  unfold mbind, result_bind.
  assert (Hid : In "ID" (names feather)).
  { pose proof (aggregate_id_cells _ _ Hagg) as H. unfold Frame.getitem in H.
    destruct (assoc "ID" (columns feather)) eqn:E; [|discriminate].
    now apply assoc_names in E. }
  apply (edit_succeeds_iff feather Hid). intros c Hc.
  destruct (Hall c Hc) as (doc & v & Hdoc & Hv & Hnum).
  destruct (aggregate_columns _ _ Hagg) as (_ & _ & Hcols). cbv zeta in Hcols.
  set (vs := concat_column c (List.map info_record docs)).
  assert (Hin : In (Some v) vs).
  { unfold vs, concat_column. rewrite List.map_map. apply in_map_iff.
    exists doc. split; [exact Hv|exact Hdoc]. }
  pose proof (is_object_value _ _ Hin Hnum) as Hobj.
  exists (List.map astype_str vs). split; [|split].
  - rewrite Hcols, assoc_map_In.
    + fold vs. now rewrite Hobj.
    + apply union_names_In. exists (info_record doc). split.
      * now apply in_map.
      * eapply assoc_names. exact Hv.
  - destruct vs; [destruct Hin|discriminate].
  - intros x Hx. apply in_map_iff in Hx as (o & <- & _).
    destruct o; simpl; eauto.
Qed.

Lemma flatten_succeeds_when_fields_hold_values_witness :
  ∃ out, flatten_info demo_docs = Ok out.
Proof.
  apply (flatten_succeeds_when_fields_hold_values demo_docs).
  intros c [<-|[<-|[<-|[<-|[]]]]];
    (eexists _, _; split; [left; reflexivity|]; split; [reflexivity|discriminate]).
Defined.
